(** * getPackages.py: staging of the NuGet plugin DLLs

    A shallow embedding of [Scripts/getPackages.py].  The script is a
    straight-line pipeline over the host file system:

      temporary directory -> nuget restore -> return-code check ->
      reset of the [Plugins] directory -> glob -> count check ->
      [shutil.move] of every match -> cleanup of the temporary directory.

    The file system is modelled as a tree of regular files and
    directories; the script is a program in a state-and-exception monad
    over that tree, together with a log of the library calls it performs.

    What the model covers:
    - a POSIX host: names are case sensitive, and [subprocess] reports a
      child killed by signal [N] with return code [-N];
    - regular files and directories only: no links, permissions, devices
      or full disks, so a library call fails only for the state of the
      tree (something missing, something in the way);
    - Python 3.9 or later, where [shutil.move] takes [Path] arguments;
    - the statements of the script and the exit of the interpreter: a
      run ends with its last statement or with the exception that leaves
      it ([result], [final]), and the interpreter then runs the finalizer
      of the temporary directory ([exited]); the exit status is outside;
    - the two calls that leave the interpreter are answered by the
      environment: [tempfile] hands out a name or raises, [subprocess]
      launches the command or raises, and the behaviour of the command
      is a parameter.  The claims are about the runs in which both calls
      are answered ([main]); [main_in] is the script in any
      environment. *)

From Stdlib Require Import List ListDec Permutation String Ascii ZArith Lia Bool Arith.
Import ListNotations.
Local Open Scope string_scope.
Local Open Scope list_scope.

(** ** The file system *)

Module FS.

(** A path is the list of its components below the root. *)
Definition path := list string.

#[local] Set Warnings "-register-all".
Inductive node : Type :=
| File (data : string)
| Dir (entries : list (string * node)).
#[local] Set Warnings "register-all".

Definition entries := list (string * node).

Definition is_dir_node (n : node) : bool :=
  match n with Dir _ => true | File _ => false end.

Definition is_file_node (n : node) : bool :=
  match n with File _ => true | Dir _ => false end.

(** Directory listings are association lists; a name resolves to its
    first entry. *)
Fixpoint assoc (c : string) (es : entries) : option node :=
  match es with
  | [] => None
  | (k, v) :: es' => if String.eqb k c then Some v else assoc c es'
  end.

Definition drop_entry (c : string) (es : entries) : entries :=
  filter (fun e => negb (String.eqb (fst e) c)) es.

Fixpoint set_entry (c : string) (x : node) (es : entries) : entries :=
  match es with
  | [] => [(c, x)]
  | (k, v) :: es' =>
      if String.eqb k c then (k, x) :: es' else (k, v) :: set_entry c x es'
  end.

Definition put (c : string) (v : option node) (es : entries) : entries :=
  match v with
  | Some x => set_entry c x es
  | None => drop_entry c es
  end.

Definition names (es : entries) : list string := map fst es.

Fixpoint lookup (p : path) (n : node) : option node :=
  match p with
  | [] => Some n
  | c :: p' =>
      match n with
      | Dir es =>
          match assoc c es with
          | Some m => lookup p' m
          | None => None
          end
      | File _ => None
      end
  end.

(** [update p v n] binds the last component of [p] to [v] in the
    directory that holds it ([None] unlinks the whole subtree).  Nothing
    changes when that directory does not exist; the root is never
    replaced. *)
Fixpoint update (p : path) (v : option node) (n : node) : node :=
  match p with
  | [] => n
  | c :: p' =>
      match n with
      | File _ => n
      | Dir es =>
          match p' with
          | [] => Dir (put c v es)
          | _ :: _ =>
              match assoc c es with
              | Some m => Dir (set_entry c (update p' v m) es)
              | None => n
              end
          end
      end
  end.

Definition parent (p : path) : path := removelast p.

Definition basename (p : path) : string := last p "".

Definition path_eqb (p q : path) : bool :=
  if list_eq_dec string_dec p q then true else false.

(** [prefix p q]: [q] is [p] itself or lies below it. *)
Definition prefix (p q : path) : Prop := exists r, q = p ++ r.

Fixpoint prefixb (p q : path) : bool :=
  match p, q with
  | [], _ => true
  | _ :: _, [] => false
  | c :: p', d :: q' => String.eqb c d && prefixb p' q'
  end.

(** Two locations are unrelated when neither contains the other. *)
Definition unrelated (p q : path) : Prop := ~ prefix p q /\ ~ prefix q p.

Definition scandir (p : path) (f : node) : entries :=
  match lookup p f with
  | Some (Dir es) => es
  | _ => []
  end.

Definition exists_at (p : path) (f : node) : bool :=
  match lookup p f with Some _ => true | None => false end.

Definition isdir_at (p : path) (f : node) : bool :=
  match lookup p f with Some (Dir _) => true | _ => false end.

Definition isfile_at (p : path) (f : node) : bool :=
  match lookup p f with Some (File _) => true | _ => false end.

(** [through_file p n]: on the way to [p] a component that is not the
    last one is a regular file.  A location that cannot be reached is
    reported as [ENOTDIR] in that case, and as [ENOENT] when a component
    is missing. *)
Fixpoint through_file (p : path) (n : node) : bool :=
  match p with
  | [] => false
  | c :: p' =>
      match n with
      | File _ => true
      | Dir es =>
          match assoc c es with
          | Some m => through_file p' m
          | None => false
          end
      end
  end.

(** [chain p x]: the node [x] under the directories named in [p]. *)
Fixpoint chain (p : path) (x : node) : node :=
  match p with
  | [] => x
  | c :: p' => Dir [(c, chain p' x)]
  end.

(** [graft p x n] binds [p] to [x] like [update], and creates the
    directories on the way that are missing ([os.makedirs]). *)
Fixpoint graft (p : path) (x : node) (n : node) : node :=
  match p with
  | [] => n
  | c :: p' =>
      match n with
      | File _ => n
      | Dir es =>
          match p' with
          | [] => Dir (set_entry c x es)
          | _ :: _ =>
              match assoc c es with
              | Some m => Dir (set_entry c (graft p' x m) es)
              | None => Dir (set_entry c (chain p' x) es)
              end
          end
      end
  end.

(** *** Association lists *)

Lemma assoc_set_entry_same c x es : assoc c (set_entry c x es) = Some x.
Proof.
  induction es as [|[k v] es IH]; simpl.
  - now rewrite String.eqb_refl.
  - destruct (String.eqb k c) eqn:E; simpl; rewrite E; auto.
Qed.

Lemma assoc_set_entry_other c d x es :
  c <> d -> assoc d (set_entry c x es) = assoc d es.
Proof.
  intros Hcd; induction es as [|[k v] es IH]; simpl.
  - destruct (String.eqb c d) eqn:E; auto.
    apply String.eqb_eq in E; contradiction.
  - destruct (String.eqb k c) eqn:E; simpl.
    + apply String.eqb_eq in E; subst k.
      destruct (String.eqb c d) eqn:E'; auto.
      apply String.eqb_eq in E'; contradiction.
    + now rewrite IH.
Qed.

Lemma assoc_drop_entry_same c es : assoc c (drop_entry c es) = None.
Proof.
  induction es as [|[k v] es IH]; simpl; auto.
  destruct (String.eqb k c) eqn:E; simpl; auto.
  now rewrite E.
Qed.

Lemma assoc_drop_entry_other c d es :
  c <> d -> assoc d (drop_entry c es) = assoc d es.
Proof.
  intros Hcd; induction es as [|[k v] es IH]; simpl; auto.
  destruct (String.eqb k c) eqn:E; simpl.
  - apply String.eqb_eq in E; subst k.
    destruct (String.eqb c d) eqn:E'; auto.
    apply String.eqb_eq in E'; contradiction.
  - now rewrite IH.
Qed.

Lemma assoc_put_same c v es : assoc c (put c v es) = v.
Proof.
  destruct v; simpl; [apply assoc_set_entry_same | apply assoc_drop_entry_same].
Qed.

Lemma assoc_put_other c d v es :
  c <> d -> assoc d (put c v es) = assoc d es.
Proof.
  destruct v; simpl; [apply assoc_set_entry_other | apply assoc_drop_entry_other].
Qed.

Lemma assoc_None_not_In c es : assoc c es = None <-> ~ In c (names es).
Proof.
  induction es as [|[k v] es IH]; simpl.
  - tauto.
  - destruct (String.eqb k c) eqn:E.
    + apply String.eqb_eq in E. split; [discriminate | intros H; exfalso; auto].
    + apply String.eqb_neq in E. rewrite IH. tauto.
Qed.

Lemma In_assoc c v es : In (c, v) es -> exists v', assoc c es = Some v'.
Proof.
  intros H. destruct (assoc c es) eqn:E; eauto.
  apply assoc_None_not_In in E. exfalso; apply E.
  unfold names. change c with (fst (c, v)). now apply in_map.
Qed.

Lemma set_entry_fresh c x es :
  ~ In c (names es) -> set_entry c x es = es ++ [(c, x)].
Proof.
  induction es as [|[k v] es IH]; simpl; intros H; auto.
  destruct (String.eqb k c) eqn:E.
  - apply String.eqb_eq in E. exfalso; auto.
  - f_equal. apply IH. tauto.
Qed.

(** *** Paths *)

Lemma prefixb_spec p q : prefixb p q = true <-> prefix p q.
Proof.
  revert q; induction p as [|c p IH]; intros q; simpl.
  - split; auto. intros _. now exists q.
  - destruct q as [|d q].
    + split; [discriminate | intros [r Hr]; discriminate].
    + rewrite andb_true_iff, String.eqb_eq, IH. split.
      * intros [-> [r ->]]. now exists r.
      * intros [r Hr]. simpl in Hr. injection Hr as -> ->. split; auto. now exists r.
Qed.

Lemma path_eqb_eq p q : path_eqb p q = true <-> p = q.
Proof.
  unfold path_eqb. destruct (list_eq_dec string_dec p q); split; auto; discriminate.
Qed.

Lemma prefix_refl p : prefix p p.
Proof. exists []. now rewrite app_nil_r. Qed.

Lemma prefix_app p r : prefix p (p ++ r).
Proof. now exists r. Qed.

Lemma prefix_trans p q r : prefix p q -> prefix q r -> prefix p r.
Proof. intros [a ->] [b ->]. exists (a ++ b). now rewrite app_assoc. Qed.

Lemma prefix_cons_inv c p d q : prefix (c :: p) (d :: q) -> c = d /\ prefix p q.
Proof. intros [r Hr]. simpl in Hr. injection Hr as -> ->. split; auto. now exists r. Qed.

Lemma prefix_cons c p q : prefix p q -> prefix (c :: p) (c :: q).
Proof. intros [r ->]. now exists r. Qed.

(** Two prefixes of one path are comparable. *)
Lemma prefix_comparable p q s : prefix p s -> prefix q s -> prefix p q \/ prefix q p.
Proof.
  revert q s; induction p as [|c p IH]; intros q s Hp Hq.
  - left. now exists q.
  - destruct q as [|d q].
    + right. now exists (c :: p).
    + destruct s as [|e s].
      * destruct Hp as [r Hr]; discriminate.
      * apply prefix_cons_inv in Hp as [-> Hp].
        apply prefix_cons_inv in Hq as [-> Hq].
        destruct (IH q s Hp Hq); [left | right]; now apply prefix_cons.
Qed.

Lemma prefix_same_length p q : prefix p q -> List.length p = List.length q -> p = q.
Proof.
  intros [r ->] H. rewrite List.length_app in H.
  destruct r; [now rewrite app_nil_r | simpl in H; lia].
Qed.

Lemma unrelated_sym p q : unrelated p q -> unrelated q p.
Proof. unfold unrelated; tauto. Qed.

Lemma unrelated_below p q r : unrelated p q -> unrelated p (q ++ r).
Proof.
  intros [H1 H2]; split; intros H.
  - destruct (prefix_comparable p q (q ++ r) H (prefix_app q r)); auto.
  - apply H2. eapply prefix_trans; [apply prefix_app | exact H].
Qed.

Lemma unrelated_siblings p c d : c <> d -> unrelated (p ++ [c]) (p ++ [d]).
Proof.
  intros Hcd; split; intros H;
    apply prefix_same_length in H; try (rewrite !List.length_app; reflexivity);
    apply app_inv_head in H; congruence.
Qed.

Lemma parent_snoc p c : parent (p ++ [c]) = p.
Proof. unfold parent. apply removelast_last. Qed.

Lemma basename_snoc p c : basename (p ++ [c]) = c.
Proof. unfold basename. apply last_last. Qed.

(** *** Lookup after update *)

Lemma lookup_app p q n :
  lookup (p ++ q) n =
  match lookup p n with Some m => lookup q m | None => None end.
Proof.
  revert n; induction p as [|c p IH]; intros n; simpl; auto.
  destruct n as [d|es]; auto.
  destruct (assoc c es); auto.
Qed.

Lemma update_cons_cons c p v es :
  p <> [] ->
  update (c :: p) v (Dir es) =
  match assoc c es with
  | Some m => Dir (set_entry c (update p v m) es)
  | None => Dir es
  end.
Proof. destruct p; [congruence | reflexivity]. Qed.

Lemma update_kind p v n : is_dir_node (update p v n) = is_dir_node n.
Proof.
  destruct p as [|c p]; simpl; auto.
  destruct n as [d|es]; auto.
  destruct p; auto. destruct (assoc c es); auto.
Qed.

(** The updated location holds the new binding, provided the directory
    that holds it exists. *)
Lemma lookup_update_hit p v r n :
  p <> [] -> isdir_at (parent p) n = true ->
  lookup (p ++ r) (update p v n) =
  match v with Some x => lookup r x | None => None end.
Proof.
  revert n; induction p as [|c p IH]; intros n Hp Hd; [congruence|].
  destruct p as [|d p].
  - unfold isdir_at in Hd; simpl in Hd.
    destruct n as [?|es]; [discriminate|].
    simpl. rewrite assoc_put_same. destruct v; auto.
  - unfold isdir_at, parent in Hd.
    change (removelast (c :: d :: p)) with (c :: removelast (d :: p)) in Hd.
    simpl lookup in Hd.
    destruct n as [?|es]; [discriminate|].
    destruct (assoc c es) as [m|] eqn:E; [|discriminate].
    rewrite update_cons_cons by congruence. rewrite E.
    change ((c :: d :: p) ++ r) with (c :: ((d :: p) ++ r)).
    simpl lookup. rewrite assoc_set_entry_same.
    apply IH; [congruence | exact Hd].
Qed.

(** Whatever lay at or below an unlinked location is gone. *)
Lemma lookup_remove_below p r n :
  p <> [] -> lookup (p ++ r) (update p None n) = None.
Proof.
  revert n; induction p as [|c p IH]; intros n Hp; [congruence|].
  destruct n as [?|es]; [reflexivity|].
  destruct p as [|d p].
  - simpl. now rewrite assoc_drop_entry_same.
  - rewrite update_cons_cons by congruence.
    change ((c :: d :: p) ++ r) with (c :: ((d :: p) ++ r)).
    destruct (assoc c es) as [m|] eqn:E.
    + simpl lookup. rewrite assoc_set_entry_same. apply IH. congruence.
    + simpl lookup. now rewrite E.
Qed.

(** Unrelated locations are not affected. *)
Lemma lookup_update_unrelated p q v n :
  unrelated p q -> lookup q (update p v n) = lookup q n.
Proof.
  revert q n; induction p as [|c p IH]; intros q n [Hpq Hqp].
  - exfalso. apply Hpq. now exists q.
  - destruct q as [|d q].
    + exfalso. apply Hqp. now exists (c :: p).
    + destruct n as [?|es]; [reflexivity|].
      destruct p as [|e p].
      * assert (c <> d).
        { intros ->. apply Hpq. now exists q. }
        simpl. now rewrite assoc_put_other.
      * rewrite update_cons_cons by congruence.
        destruct (assoc c es) as [m|] eqn:E; [|reflexivity].
        simpl lookup. destruct (string_dec c d) as [->|Hcd].
        -- rewrite assoc_set_entry_same, E. apply IH. split; intros H.
           ++ apply Hpq. now apply prefix_cons.
           ++ apply Hqp. now apply prefix_cons.
        -- now rewrite assoc_set_entry_other.
Qed.

(** The directory that holds the updated location sees exactly one
    binding change. *)
Lemma lookup_update_parent q c v n es :
  lookup q n = Some (Dir es) ->
  lookup q (update (q ++ [c]) v n) = Some (Dir (put c v es)).
Proof.
  revert n; induction q as [|d q IH]; intros n H.
  - simpl in H. injection H as ->. reflexivity.
  - simpl in H. destruct n as [?|es0]; [discriminate|].
    destruct (assoc d es0) as [m|] eqn:E; [|discriminate].
    change ((d :: q) ++ [c]) with (d :: (q ++ [c])).
    rewrite update_cons_cons by (destruct q; discriminate).
    rewrite E. simpl lookup. rewrite assoc_set_entry_same. now apply IH.
Qed.

(** A directory strictly above the updated location stays a directory
    (and a non-directory stays what it was). *)
Lemma isdir_update_above q r v n :
  r <> [] -> isdir_at q (update (q ++ r) v n) = isdir_at q n.
Proof.
  revert n; induction q as [|d q IH]; intros n Hr.
  - unfold isdir_at; simpl lookup.
    generalize (update_kind r v n). destruct (update r v n), n; simpl; congruence.
  - destruct n as [?|es]; [reflexivity|].
    change ((d :: q) ++ r) with (d :: (q ++ r)).
    rewrite update_cons_cons by (destruct q; [assumption | discriminate]).
    destruct (assoc d es) as [m|] eqn:E; [|reflexivity].
    unfold isdir_at. simpl lookup. rewrite assoc_set_entry_same, E.
    apply (IH m Hr).
Qed.

Lemma isdir_exists p f : isdir_at p f = true -> exists_at p f = true.
Proof. unfold isdir_at, exists_at. destruct (lookup p f); auto. Qed.

Lemma isdir_lookup p f : isdir_at p f = true -> exists es, lookup p f = Some (Dir es).
Proof. unfold isdir_at. destruct (lookup p f) as [[?|es]|]; try discriminate. eauto. Qed.

(** Whatever exists lies inside a directory. *)
Lemma lookup_parent_isdir p c f m :
  lookup (p ++ [c]) f = Some m -> isdir_at p f = true.
Proof.
  rewrite lookup_app. unfold isdir_at. destruct (lookup p f) as [[?|es]|]; simpl; auto; discriminate.
Qed.

(** Nothing exists below a regular file or a missing entry. *)
Lemma lookup_through_nondir p r f :
  r <> [] -> isdir_at p f = false -> lookup (p ++ r) f = None.
Proof.
  intros Hr. rewrite lookup_app. unfold isdir_at.
  destruct (lookup p f) as [[?|es]|]; auto; try discriminate.
  destruct r; [congruence | reflexivity].
Qed.

(** *** Deleting and creating again *)

Lemma drop_entry_put c v es : drop_entry c (put c v es) = drop_entry c es.
Proof.
  destruct v as [x|]; simpl.
  - induction es as [|[k w] es IH]; simpl.
    + now rewrite String.eqb_refl.
    + destruct (String.eqb k c) eqn:E; simpl; rewrite E; simpl; congruence.
  - induction es as [|[k w] es IH]; simpl; auto.
    destruct (String.eqb k c) eqn:E; simpl; auto.
    rewrite E. simpl. congruence.
Qed.

Lemma set_entry_twice c a b es :
  set_entry c a (set_entry c b es) = set_entry c a es.
Proof.
  induction es as [|[k w] es IH]; simpl.
  - now rewrite String.eqb_refl.
  - destruct (String.eqb k c) eqn:E; simpl; rewrite E; congruence.
Qed.

Lemma drop_entry_absent c es : assoc c es = None -> drop_entry c es = es.
Proof.
  induction es as [|[k w] es IH]; simpl; auto.
  destruct (String.eqb k c) eqn:E; [discriminate|]. simpl. intros H.
  now rewrite IH.
Qed.

Lemma set_entry_same c m es : assoc c es = Some m -> set_entry c m es = es.
Proof.
  induction es as [|[k w] es IH]; simpl; [discriminate|].
  destruct (String.eqb k c) eqn:E.
  - now intros [= ->].
  - intros H. now rewrite IH.
Qed.

(** Deleting a location and creating it again forgets whatever was done
    to that location before. *)
Lemma update_recreate p x v n :
  update p (Some x) (update p None (update p v n)) =
  update p (Some x) (update p None n).
Proof.
  revert n; induction p as [|c p IH]; intros n; [reflexivity|].
  destruct n as [d|es]; [reflexivity|].
  destruct p as [|e p].
  - cbn [update]. unfold put at 1 2 4 5. now rewrite drop_entry_put.
  - rewrite !(update_cons_cons c (e :: p)) by congruence.
    destruct (assoc c es) as [m|] eqn:E.
    + rewrite !(update_cons_cons c (e :: p)) by congruence.
      rewrite !assoc_set_entry_same.
      rewrite !(update_cons_cons c (e :: p)) by congruence.
      rewrite !assoc_set_entry_same, !set_entry_twice. now rewrite IH.
    + rewrite !(update_cons_cons c (e :: p)) by congruence.
      rewrite E. rewrite !(update_cons_cons c (e :: p)) by congruence.
      now rewrite E.
Qed.

Lemma update_remove_absent p n : lookup p n = None -> update p None n = n.
Proof.
  revert n; induction p as [|c p IH]; intros n H; [reflexivity|].
  destruct n as [d|es]; [reflexivity|].
  simpl in H. destruct p as [|e p].
  - cbn [update put]. destruct (assoc c es) eqn:E; [discriminate|].
    now rewrite drop_entry_absent.
  - rewrite update_cons_cons by congruence.
    destruct (assoc c es) as [m|] eqn:E; [|reflexivity].
    rewrite (IH m H). now rewrite set_entry_same.
Qed.

(** Removing a location forgets what was bound there before. *)
Lemma update_remove_after p v n :
  update p None (update p v n) = update p None n.
Proof.
  revert n; induction p as [|c p IH]; intros n; [reflexivity|].
  destruct n as [d|es]; [reflexivity|].
  destruct p as [|e p].
  - cbn [update]. unfold put at 1 3. now rewrite drop_entry_put.
  - rewrite !(update_cons_cons c (e :: p)) by congruence.
    destruct (assoc c es) as [m|] eqn:E.
    + rewrite !(update_cons_cons c (e :: p)) by congruence.
      rewrite assoc_set_entry_same, set_entry_twice. now rewrite IH.
    + rewrite !(update_cons_cons c (e :: p)) by congruence.
      now rewrite E.
Qed.

(** Without the directory that should hold it, a location cannot be
    bound. *)
Lemma update_no_directory p v n :
  isdir_at (parent p) n = false -> update p v n = n.
Proof.
  revert n; induction p as [|c p IH]; intros n H; [reflexivity|].
  destruct n as [d|es]; [reflexivity|].
  destruct p as [|e p].
  - discriminate.
  - rewrite update_cons_cons by congruence.
    unfold isdir_at, parent in H.
    change (removelast (c :: e :: p)) with (c :: removelast (e :: p)) in H.
    simpl lookup in H.
    destruct (assoc c es) as [m|] eqn:E; [|reflexivity].
    rewrite (IH m H). now rewrite set_entry_same.
Qed.

(** *** Locations that cannot be reached *)

Lemma through_file_lookup p n : through_file p n = true -> lookup p n = None.
Proof.
  revert n; induction p as [|c p IH]; intros n; simpl; [discriminate|].
  destruct n as [d|es]; [reflexivity|].
  destruct (assoc c es); [apply IH | discriminate].
Qed.

Lemma through_file_app p r n :
  isfile_at p n = true -> r <> [] -> through_file (p ++ r) n = true.
Proof.
  unfold isfile_at.
  revert n; induction p as [|c p IH]; intros n H Hr; simpl in *.
  - destruct n; [|discriminate]. destruct r; [congruence | reflexivity].
  - destruct n as [d|es]; [reflexivity|].
    destruct (assoc c es); [now apply IH | discriminate].
Qed.

Lemma isfile_update_above q r v n :
  r <> [] -> isfile_at q (update (q ++ r) v n) = isfile_at q n.
Proof.
  revert n; induction q as [|d q IH]; intros n Hr.
  - unfold isfile_at; simpl lookup.
    generalize (update_kind r v n). destruct (update r v n), n; simpl; congruence.
  - destruct n as [?|es]; [reflexivity|].
    change ((d :: q) ++ r) with (d :: (q ++ r)).
    rewrite update_cons_cons by (destruct q; [assumption | discriminate]).
    destruct (assoc d es) as [m|] eqn:E; [|reflexivity].
    unfold isfile_at. simpl lookup. rewrite assoc_set_entry_same, E.
    apply (IH m Hr).
Qed.

(** A location that does not lie at or below the updated one keeps its
    kind. *)
Lemma kind_update_outside p q v n :
  ~ prefix p q ->
  isdir_at q (update p v n) = isdir_at q n /\
  isfile_at q (update p v n) = isfile_at q n.
Proof.
  intros H. destruct (prefixb q p) eqn:E.
  - apply prefixb_spec in E as [r ->]. destruct r as [|c r].
    + exfalso. apply H. rewrite app_nil_r. apply prefix_refl.
    + split; [apply isdir_update_above | apply isfile_update_above]; discriminate.
  - assert (Hu : unrelated p q).
    { split; [exact H|]. intros Hq. apply prefixb_spec in Hq. congruence. }
    unfold isdir_at, isfile_at. now rewrite lookup_update_unrelated.
Qed.

(** *** Grafting *)

Lemma graft_cons_cons c p x es :
  p <> [] ->
  graft (c :: p) x (Dir es) =
  match assoc c es with
  | Some m => Dir (set_entry c (graft p x m) es)
  | None => Dir (set_entry c (chain p x) es)
  end.
Proof. destruct p; [congruence | reflexivity]. Qed.

Lemma lookup_chain_unrelated p q x :
  unrelated p q -> lookup q (chain p x) = None.
Proof.
  revert q; induction p as [|a p IH]; intros q [H1 H2].
  - exfalso. apply H1. now exists q.
  - destruct q as [|b q].
    + exfalso. apply H2. now exists (a :: p).
    + simpl. destruct (String.eqb a b) eqn:Eab; [|reflexivity].
      apply String.eqb_eq in Eab. subst b.
      apply IH. split; intros H.
      * apply H1. now apply prefix_cons.
      * apply H2. now apply prefix_cons.
Qed.

Lemma lookup_graft_unrelated p q x n :
  unrelated p q -> lookup q (graft p x n) = lookup q n.
Proof.
  revert q n; induction p as [|c p IH]; intros q n [Hpq Hqp].
  - exfalso. apply Hpq. now exists q.
  - destruct q as [|d q].
    + exfalso. apply Hqp. now exists (c :: p).
    + destruct n as [?|es]; [reflexivity|].
      assert (Hother : c <> d ->
                forall y, assoc d (set_entry c y es) = assoc d es).
      { intros Hcd y. now apply assoc_set_entry_other. }
      destruct p as [|e p].
      * assert (c <> d).
        { intros ->. apply Hpq. now exists q. }
        simpl. now rewrite Hother.
      * rewrite graft_cons_cons by congruence.
        destruct (string_dec c d) as [->|Hcd].
        -- destruct (assoc d es) as [m|] eqn:E.
           ++ simpl lookup. rewrite assoc_set_entry_same, E. apply IH. split; intros H.
              ** apply Hpq. now apply prefix_cons.
              ** apply Hqp. now apply prefix_cons.
           ++ cbn [lookup]. rewrite assoc_set_entry_same, E.
              apply (lookup_chain_unrelated (e :: p) q). split; intros H.
              ** apply Hpq. now apply prefix_cons.
              ** apply Hqp. now apply prefix_cons.
        -- destruct (assoc c es); simpl lookup; now rewrite Hother.
Qed.

End FS.

Import FS.

(** ** The interpreter: state, exceptions and the library calls *)

(** The exceptions the script can end with.  [Exception] is the built-in
    class the script raises itself, with its message.  [PermissionError]
    is raised by no call on the tree; it is what [subprocess.run] raises
    for a command that is found and cannot be executed. *)
Inductive exn : Type :=
| Exception (msg : string)
| FileExistsError (p : path)
| FileNotFoundError (p : path)
| NotADirectoryError (p : path)
| IsADirectoryError (p : path)
| PermissionError (p : path)
| OSError (p : path)
| shutil_Error_exists (real_dst : path)
| shutil_Error_into_itself (src dst : path).

(** The calls that touch the world, in the order they are made. *)
Inductive event : Type :=
| TemporaryDirectory_created (name : path)
| subprocess_run_returned (config packages : path) (returncode : Z)
| rmtree_called (p : path)
| mkdir_called (p : path)
| move_called (src dst : path)
| cleanup_called (name : path).

Record world : Type := World { fs : node; log : list event }.

Inductive outcome (A : Type) : Type :=
| Ok (a : A)
| Raise (e : exn).
Arguments Ok {A} a.
Arguments Raise {A} e.

(** A statement runs in a world and either yields a value or raises; the
    world it leaves behind is kept in both cases. *)
Definition M (A : Type) : Type := world -> outcome A * world.

Definition ret {A} (a : A) : M A := fun w => (Ok a, w).

Definition raise {A} (e : exn) : M A := fun w => (Raise e, w).

Definition bind {A B} (c : M A) (k : A -> M B) : M B :=
  fun w =>
    match c w with
    | (Ok a, w') => k a w'
    | (Raise e, w') => (Raise e, w')
    end.

Notation "x <- c1 ;; c2" := (bind c1 (fun x => c2))
  (at level 61, c1 at next level, right associativity).
Notation "c1 ;; c2" := (bind c1 (fun _ => c2))
  (at level 61, right associativity).

Definition record (e : event) (w : world) : world :=
  World (fs w) (log w ++ [e]).

Definition set_fs (f : node) (w : world) : world := World f (log w).

Fixpoint for_each {A} (body : A -> M unit) (l : list A) : M unit :=
  match l with
  | [] => ret tt
  | x :: l' => body x ;; for_each body l'
  end.

(** [str.endswith] *)
Definition endswith (s suffix : string) : bool :=
  let n := String.length s in
  let k := String.length suffix in
  (k <=? n)%nat && String.eqb (substring (n - k) k s) suffix.

(** *** os and os.path *)

Definition os_path_exists (p : path) : M bool :=
  fun w => (Ok (exists_at p (fs w)), w).

Definition os_path_isdir (p : path) : M bool :=
  fun w => (Ok (isdir_at p (fs w)), w).

(** The error of a call on [p] that finds nothing at [q] ([p] itself or
    the directory that should hold it): [ENOTDIR] when a regular file is
    in the way, [ENOENT] when a component is missing. *)
Definition unreachable (p q : path) (f : node) : exn :=
  if through_file q f then NotADirectoryError p else FileNotFoundError p.

(** [os.mkdir]: the entry must be new and its directory must exist. *)
Definition os_mkdir (p : path) : M unit :=
  fun w =>
    let w' := record (mkdir_called p) w in
    if exists_at p (fs w) then (Raise (FileExistsError p), w')
    else
      match lookup (parent p) (fs w) with
      | Some (Dir _) => (Ok tt, set_fs (update p (Some (Dir [])) (fs w)) w')
      | Some (File _) => (Raise (NotADirectoryError p), w')
      | None => (Raise (unreachable p (parent p) (fs w)), w')
      end.

(** Whether the directory [q] that holds, or is to hold, [p] can be
    reached. *)
Definition directory_error (p q : path) (f : node) : option exn :=
  match lookup q f with
  | Some (Dir _) => None
  | Some (File _) => Some (NotADirectoryError p)
  | None => Some (unreachable p q f)
  end.

(** [os.rename] on a POSIX host.  Both directories are resolved first,
    then the source; a directory is not moved below itself ([EINVAL]) and
    nothing replaces a directory it lies in ([ENOTEMPTY]); a regular file
    replaces a regular file and a directory an empty directory. *)
Definition os_rename (src dst : path) (f : node) : exn + node :=
  match directory_error src (parent src) f with
  | Some e => inl e
  | None =>
      match directory_error dst (parent dst) f with
      | Some e => inl e
      | None =>
          match lookup src f with
          | None => inl (FileNotFoundError src)
          | Some n =>
              if path_eqb src dst then inr f
              else if prefixb src dst then inl (OSError src)
              else if prefixb dst src then inl (OSError dst)
              else
                match lookup dst f, n with
                | None, _ => inr (update dst (Some n) (update src None f))
                | Some (File _), File _ => inr (update dst (Some n) (update src None f))
                | Some (Dir []), Dir _ => inr (update dst (Some n) (update src None f))
                | Some (Dir (_ :: _)), Dir _ => inl (OSError dst)
                | Some (Dir _), File _ => inl (IsADirectoryError dst)
                | Some (File _), Dir _ => inl (NotADirectoryError dst)
                end
          end
      end
  end.

(** *** shutil *)

(** [shutil.rmtree]: the argument must be a directory. *)
Definition shutil_rmtree (p : path) : M unit :=
  fun w =>
    let w' := record (rmtree_called p) w in
    match lookup p (fs w) with
    | Some (Dir _) => (Ok tt, set_fs (update p None (fs w)) w')
    | Some (File _) => (Raise (NotADirectoryError p), w')
    | None => (Raise (unreachable p p (fs w)), w')
    end.

Definition samefile (src dst : path) (f : node) : bool :=
  exists_at src f && exists_at dst f && path_eqb src dst.

(** [shutil.copytree(src, dst)] followed by [shutil.rmtree(src)], for a
    directory [src] that holds [es]: [os.makedirs] creates [dst] and the
    directories above it that are missing, and does not accept a [dst]
    that exists. *)
Definition copytree_rmtree (src dst : path) (es : list (string * node))
    (f : node) : exn + node :=
  if exists_at dst f then inl (FileExistsError dst)
  else if through_file dst f then inl (NotADirectoryError dst)
  else inr (update src None (graft dst (Dir es) f)).

(** [shutil.move].  Into an existing directory the source goes under its
    own base name, and an entry of that name is never replaced: the call
    raises [shutil.Error].  The move itself is [os.rename].  Where the
    rename fails the source is copied and then deleted: a source that
    cannot be opened is reported as such, a regular file is copied by
    [copy2], which fails as the rename did, and a directory is not moved
    into itself ([shutil.Error]) and is copied by [copytree]. *)
Definition shutil_move (src dst : path) : M unit :=
  fun w0 =>
    let f := fs w0 in
    let w := record (move_called src dst) w0 in
    let rename_to (real_dst : path) : outcome unit * world :=
      match os_rename src real_dst f with
      | inr f' => (Ok tt, set_fs f' w)
      | inl e =>
          match lookup src f with
          | None => (Raise (unreachable src src f), w)
          | Some (File _) => (Raise e, w)
          | Some (Dir es) =>
              if prefixb src dst
              then (Raise (shutil_Error_into_itself src dst), w)
              else
                match copytree_rmtree src real_dst es f with
                | inr f' => (Ok tt, set_fs f' w)
                | inl e' => (Raise e', w)
                end
          end
      end in
    if isdir_at dst f then
      if samefile src dst f then (Ok tt, w)
      else
        let real_dst := dst ++ [basename src] in
        if exists_at real_dst f
        then (Raise (shutil_Error_exists real_dst), w)
        else rename_to real_dst
    else rename_to dst.

(** *** pathlib *)

(** One component of a glob pattern: a wildcard component is matched
    against the listing of the directory reached so far, a literal one is
    looked up by name. *)
Inductive selector : Type :=
| Wildcard (matches : string -> bool)
| Precise (name : string).

Definition last_part (rest : list selector) : bool :=
  match rest with [] => true | _ :: _ => false end.

(** Components before the last one select directories only. *)
Fixpoint select_from (parts : list selector) (p : path) (f : node) : list path :=
  match parts with
  | [] => [p]
  | Precise name :: rest =>
      let child := p ++ [name] in
      if (if last_part rest then exists_at child f else isdir_at child f)
      then select_from rest child f
      else []
  | Wildcard matches :: rest =>
      flat_map
        (fun e : string * node =>
           if (last_part rest || is_dir_node (snd e)) && matches (fst e)
           then select_from rest (p ++ [fst e]) f
           else [])
        (scandir p f)
  end.

(** The pattern ['*/lib/netstandard2.0/*.dll']. *)
Definition DLL_PATTERN : list selector :=
  [ Wildcard (fun _ => true);
    Precise "lib";
    Precise "netstandard2.0";
    Wildcard (fun name => endswith name ".dll") ].

Definition Path_glob (root : path) (parts : list selector) : M (list path) :=
  fun w =>
    (Ok (if isdir_at root (fs w) then select_from parts root (fs w) else []), w).

(** ** The script *)

Definition PLUGINS_OUTPUT_DIRECTORY : string := "Plugins".
Definition EXPECTED_PLUGIN_COUNT : nat := 8.

Definition RESTORE_FAILED : exn :=
  Exception "nuget restore did not exit successfully, please check logs to fix any errors.".

Definition DOWNLOAD_FAILED : exn :=
  Exception "failed to download the necessary NuGet packages, please check logs to fix any errors.".

(** What the host answers to the two calls that leave the interpreter.
    [tempfile] hands out the name of the temporary directory, a name that
    is not taken, in the temporary directory of the host; it raises when
    it finds no usable directory.  [subprocess.run] launches
    [nuget restore <config> -PackagesDirectory <dir>], which may change
    the file system in any way and ends with a return code (a child
    killed by signal [N] is reported as [-N]); it raises when the command
    cannot be launched: [FileNotFoundError] when [nuget] is not on the
    search path, [PermissionError] when it is found and cannot be
    executed. *)
Record environment : Type := Environment {
  temporary_directory : exn + path;
  run_nuget : path -> path -> node -> exn + Z * node
}.

Section Script.

(** The directory that holds the script. *)
Variable script_path : path.

(** The name [tempfile] hands out for the temporary directory. *)
Variable temp_name : path.

(** The external [nuget restore <config> -PackagesDirectory <dir>],
    once launched: it may change the file system in any way and ends
    with a return code.  [subprocess.run] reports a child killed by
    signal [N] as [-N]. *)
Variable nuget_restore : path -> path -> node -> Z * node.

Definition plugins_output_path : path := script_path ++ [PLUGINS_OUTPUT_DIRECTORY].
Definition config_path : path := script_path ++ ["packages.config"].

(** [tempfile.TemporaryDirectory()]: an empty directory under the name
    handed out, or the exception of [tempfile].  The finalizer it
    registers for the directory is run by [interpreter_exit]. *)
Definition tempfile_TemporaryDirectory (env : environment) : M path :=
  fun w =>
    match temporary_directory env with
    | inl e => (Raise e, w)
    | inr name =>
        (Ok name,
         record (TemporaryDirectory_created name)
           (set_fs (update name (Some (Dir [])) (fs w)) w))
    end.

(** [subprocess.run(['nuget', 'restore', config, '-PackagesDirectory', dir]).returncode] *)
Definition subprocess_run_nuget (env : environment) (config dir : path) : M Z :=
  fun w =>
    match run_nuget env config dir (fs w) with
    | inl e => (Raise e, w)
    | inr (returncode, f) =>
        (Ok returncode,
         record (subprocess_run_returned config dir returncode) (set_fs f w))
    end.

(** [TemporaryDirectory.cleanup()]: a directory that is already gone is
    not an error; anything else that keeps [rmtree] from deleting it
    is. *)
Definition TemporaryDirectory_cleanup (name : path) : M unit :=
  fun w =>
    let w' := record (cleanup_called name) w in
    match lookup name (fs w) with
    | Some (Dir _) => (Ok tt, set_fs (update name None (fs w)) w')
    | Some (File _) => (Raise (NotADirectoryError name), w')
    | None =>
        if through_file name (fs w) then (Raise (NotADirectoryError name), w')
        else (Ok tt, w')
    end.

(** Lines 25-27: the reset of the output directory. *)
Definition reset_output_directory : M unit :=
  e <- os_path_exists plugins_output_path ;;
  d <- os_path_isdir plugins_output_path ;;
  (if e && d then shutil_rmtree plugins_output_path else ret tt) ;;
  os_mkdir plugins_output_path.

(** Lines 33-34: the loop over the matches. *)
Definition move_all (filepaths : list path) : M unit :=
  for_each (fun filepath => shutil_move filepath plugins_output_path) filepaths.

(** Everything up to, and not including, the cleanup. *)
Definition pipeline_in (env : environment) : M path :=
  temp_directory <- tempfile_TemporaryDirectory env ;;
  nuget_return_code <- subprocess_run_nuget env config_path temp_directory ;;
  (if (nuget_return_code >? 0)%Z then raise RESTORE_FAILED else ret tt) ;;
  reset_output_directory ;;
  filepaths <- Path_glob temp_directory DLL_PATTERN ;;
  (if (List.length filepaths <? EXPECTED_PLUGIN_COUNT)%nat
   then raise DOWNLOAD_FAILED else ret tt) ;;
  move_all filepaths ;;
  ret temp_directory.

(** The script. *)
Definition main_in (env : environment) : M unit :=
  temp_directory <- pipeline_in env ;;
  TemporaryDirectory_cleanup temp_directory.

(** The runs in which both calls are answered: [tempfile] hands out
    [temp_name] and the command is launched and behaves as
    [nuget_restore]. *)
Definition launched : environment :=
  Environment (inr temp_name)
              (fun config dir f => inr (nuget_restore config dir f)).

Definition pipeline : M path := pipeline_in launched.

Definition main : M unit := main_in launched.

(** *** Vocabulary for the statements *)

(** What the restore command returned, and the file system it left. *)
Definition returncode (f0 : node) : Z :=
  fst (nuget_restore config_path temp_name (update temp_name (Some (Dir [])) f0)).

Definition restored (f0 : node) : node :=
  snd (nuget_restore config_path temp_name (update temp_name (Some (Dir [])) f0)).

(** The reset can be carried out: the script directory is there and no
    regular file occupies the output path. *)
Definition resettable (f : node) : bool :=
  isdir_at script_path f && negb (isfile_at plugins_output_path f).

Definition reset_fs (f : node) : node :=
  update plugins_output_path (Some (Dir []))
    (if isdir_at plugins_output_path f
     then update plugins_output_path None f else f).

Definition reset_log (f : node) : list event :=
  (if isdir_at plugins_output_path f
   then [rmtree_called plugins_output_path] else [])
  ++ [mkdir_called plugins_output_path].

(** The value of [filepaths] when the glob is evaluated in [f]. *)
Definition matched (f : node) : list path :=
  if isdir_at temp_name f then select_from DLL_PATTERN temp_name f else [].

Definition restore_log (f0 : node) : list event :=
  [ TemporaryDirectory_created temp_name;
    subprocess_run_returned config_path temp_name (returncode f0) ].

Definition moves (l : list path) : list event :=
  map (fun p => move_called p plugins_output_path) l.

(** *** The run, phase by phase *)

Lemma main_phases f0 :
  main (World f0 []) =
  let w2 := World (restored f0) (restore_log f0) in
  if (returncode f0 >? 0)%Z then (Raise RESTORE_FAILED, w2)
  else
    match reset_output_directory w2 with
    | (Raise e, w3) => (Raise e, w3)
    | (Ok _, w3) =>
        if (List.length (matched (fs w3)) <? EXPECTED_PLUGIN_COUNT)%nat
        then (Raise DOWNLOAD_FAILED, w3)
        else
          match move_all (matched (fs w3)) w3 with
          | (Raise e, w4) => (Raise e, w4)
          | (Ok _, w4) => TemporaryDirectory_cleanup temp_name w4
          end
    end.
Proof.
  unfold restore_log.
  unfold main, main_in, pipeline_in, launched, bind, tempfile_TemporaryDirectory,
    subprocess_run_nuget, returncode, restored, record, set_fs, raise, ret,
    Path_glob, matched.
  cbn [fs log temporary_directory run_nuget].
  destruct (nuget_restore config_path temp_name _) as [rc fr]. simpl fst; simpl snd.
  destruct (rc >? 0)%Z; [reflexivity|].
  destruct (reset_output_directory _) as [[[]|e] w3]; [|reflexivity].
  destruct (List.length _ <? EXPECTED_PLUGIN_COUNT)%nat; [reflexivity|].
  destruct (move_all _ w3) as [[[]|e] w4]; reflexivity.
Qed.

Lemma pipeline_phases f0 :
  pipeline (World f0 []) =
  let w2 := World (restored f0) (restore_log f0) in
  if (returncode f0 >? 0)%Z then (Raise RESTORE_FAILED, w2)
  else
    match reset_output_directory w2 with
    | (Raise e, w3) => (Raise e, w3)
    | (Ok _, w3) =>
        if (List.length (matched (fs w3)) <? EXPECTED_PLUGIN_COUNT)%nat
        then (Raise DOWNLOAD_FAILED, w3)
        else
          match move_all (matched (fs w3)) w3 with
          | (Raise e, w4) => (Raise e, w4)
          | (Ok _, w4) => (Ok temp_name, w4)
          end
    end.
Proof.
  unfold restore_log.
  unfold pipeline, pipeline_in, launched, bind, tempfile_TemporaryDirectory,
    subprocess_run_nuget, returncode, restored, record, set_fs, raise, ret,
    Path_glob, matched.
  cbn [fs log temporary_directory run_nuget].
  destruct (nuget_restore config_path temp_name _) as [rc fr]. simpl fst; simpl snd.
  destruct (rc >? 0)%Z; [reflexivity|].
  destruct (reset_output_directory _) as [[[]|e] w3]; [|reflexivity].
  destruct (List.length _ <? EXPECTED_PLUGIN_COUNT)%nat; [reflexivity|].
  destruct (move_all _ w3) as [[[]|e] w4]; reflexivity.
Qed.

Lemma main_after_pipeline w :
  main w =
  match pipeline w with
  | (Ok t, w') => TemporaryDirectory_cleanup t w'
  | (Raise e, w') => (Raise e, w')
  end.
Proof. reflexivity. Qed.

(** *** The reset *)

Lemma parent_output : parent plugins_output_path = script_path.
Proof. apply parent_snoc. Qed.

Lemma output_not_root : plugins_output_path <> [].
Proof. unfold plugins_output_path. destruct script_path; discriminate. Qed.

Lemma os_mkdir_runs p f lg :
  exists_at p f = false -> isdir_at (parent p) f = true ->
  os_mkdir p (World f lg) =
  (Ok tt, World (update p (Some (Dir [])) f) (lg ++ [mkdir_called p])).
Proof.
  intros He Hd. unfold os_mkdir, record, set_fs. cbn [fs log].
  rewrite He. destruct (isdir_lookup _ _ Hd) as [es ->]. reflexivity.
Qed.

Lemma shutil_rmtree_runs p f lg :
  isdir_at p f = true ->
  shutil_rmtree p (World f lg) =
  (Ok tt, World (update p None f) (lg ++ [rmtree_called p])).
Proof.
  intros Hd. unfold shutil_rmtree, record, set_fs. cbn [fs log].
  destruct (isdir_lookup _ _ Hd) as [es ->]. reflexivity.
Qed.

Lemma exists_after_remove p f : p <> [] -> exists_at p (update p None f) = false.
Proof.
  intros Hp. unfold exists_at.
  rewrite <- (app_nil_r p) at 1. now rewrite lookup_remove_below.
Qed.

Lemma reset_runs f lg :
  resettable f = true ->
  reset_output_directory (World f lg) =
  (Ok tt, World (reset_fs f) (lg ++ reset_log f)).
Proof.
  unfold resettable. rewrite andb_true_iff, negb_true_iff.
  intros [Hs Hf].
  unfold reset_output_directory, reset_fs, reset_log, bind,
    os_path_exists, os_path_isdir, ret.
  cbv beta. cbn [fs log].
  destruct (isdir_at plugins_output_path f) eqn:Hd.
  - rewrite (isdir_exists _ _ Hd). simpl andb. cbv iota.
    rewrite (shutil_rmtree_runs _ _ _ Hd).
    rewrite os_mkdir_runs.
    + now rewrite <- app_assoc.
    + apply exists_after_remove, output_not_root.
    + rewrite parent_output. unfold plugins_output_path.
      rewrite isdir_update_above; [exact Hs | discriminate].
  - rewrite andb_false_r. rewrite os_mkdir_runs.
    + reflexivity.
    + unfold exists_at, isfile_at, isdir_at in *.
      destruct (lookup plugins_output_path f) as [[?|?]|]; congruence.
    + now rewrite parent_output.
Qed.

Lemma reset_leaves_empty_directory f :
  resettable f = true ->
  lookup plugins_output_path (reset_fs f) = Some (Dir []).
Proof.
  unfold resettable, reset_fs. rewrite andb_true_iff. intros [Hs _].
  rewrite <- (app_nil_r plugins_output_path) at 1.
  rewrite lookup_update_hit; [reflexivity | apply output_not_root |].
  rewrite parent_output.
  destruct (isdir_at plugins_output_path f); [|exact Hs].
  unfold plugins_output_path. rewrite isdir_update_above; [exact Hs | discriminate].
Qed.

(** Otherwise nothing is deleted and [os.mkdir] raises. *)
Lemma reset_refused f lg :
  resettable f = false ->
  exists e,
    reset_output_directory (World f lg) =
    (Raise e, World f (lg ++ [mkdir_called plugins_output_path])) /\
    (e = FileExistsError plugins_output_path \/
     e = NotADirectoryError plugins_output_path \/
     e = FileNotFoundError plugins_output_path).
Proof.
  unfold resettable, reset_output_directory, bind,
    os_path_exists, os_path_isdir, shutil_rmtree, os_mkdir, ret, record, set_fs.
  cbn [fs log]. rewrite andb_false_iff, negb_false_iff.
  unfold isfile_at. intros H.
  destruct (lookup plugins_output_path f) as [[d|eo]|] eqn:Ho.
  - unfold exists_at, isdir_at. rewrite Ho. simpl. rewrite Ho.
    eexists; split; [reflexivity | auto].
  - destruct H as [H|H]; [|discriminate].
    apply lookup_parent_isdir in Ho. congruence.
  - unfold exists_at, isdir_at. rewrite Ho. simpl. rewrite Ho.
    rewrite parent_output.
    destruct (lookup script_path f) as [[d|es]|] eqn:Hs.
    + eexists; split; [reflexivity | auto].
    + destruct H as [H|H]; [|discriminate].
      unfold isdir_at in H. rewrite Hs in H. discriminate.
    + unfold unreachable.
      destruct (through_file script_path f); eexists; (split; [reflexivity | auto]).
Qed.

(** *** The glob *)

(** A match is four levels below the temporary directory, is named
    [*.dll], and exists. *)
Definition below_temp (p : path) : Prop :=
  exists r, p = temp_name ++ r /\ List.length r = 4.

Lemma matched_shape f p :
  In p (matched f) ->
  exists x n v,
    p = temp_name ++ [x; "lib"; "netstandard2.0"; n] /\
    endswith n ".dll" = true /\
    lookup p f = Some v.
Proof.
  unfold matched. destruct (isdir_at temp_name f); [|contradiction].
  unfold DLL_PATTERN. cbn [select_from last_part orb andb].
  rewrite in_flat_map. intros [[x nx] [_ H]]. cbn [fst snd] in H.
  rewrite andb_true_r in H.
  destruct (is_dir_node nx); [|contradiction].
  destruct (isdir_at ((temp_name ++ [x]) ++ ["lib"]) f); [|contradiction].
  destruct (isdir_at (((temp_name ++ [x]) ++ ["lib"]) ++ ["netstandard2.0"]) f) eqn:Hd;
    [|contradiction].
  rewrite in_flat_map in H. destruct H as [[n v] [Hin H]]. cbn [fst snd] in H.
  destruct (endswith n ".dll") eqn:Hn; [|contradiction].
  destruct H as [<-|[]].
  unfold scandir in Hin.
  destruct (lookup (((temp_name ++ [x]) ++ ["lib"]) ++ ["netstandard2.0"]) f)
    as [[?|es]|] eqn:Hl; try contradiction.
  destruct (In_assoc _ _ _ Hin) as [v' Hv'].
  exists x, n, v'. repeat split; auto.
  - now rewrite <- !app_assoc.
  - rewrite lookup_app, Hl. simpl. now rewrite Hv'.
Qed.

Lemma matched_below_temp f : Forall below_temp (matched f).
Proof.
  apply Forall_forall. intros p Hp.
  destruct (matched_shape _ _ Hp) as (x & n & v & -> & _ & _).
  eexists; split; reflexivity.
Qed.

(** *** One move *)

Lemma path_eqb_neq p q : p <> q -> path_eqb p q = false.
Proof.
  intros H. destruct (path_eqb p q) eqn:E; auto.
  apply path_eqb_eq in E. contradiction.
Qed.

Lemma prefixb_false p q : ~ prefix p q -> prefixb p q = false.
Proof.
  intros H. destruct (prefixb p q) eqn:E; auto.
  apply prefixb_spec in E. contradiction.
Qed.

Lemma unrelated_neq p q : unrelated p q -> p <> q.
Proof. intros [H _] ->. apply H, prefix_refl. Qed.

Lemma unrelated_child p q c : unrelated p q -> unrelated p (q ++ [c]).
Proof. apply unrelated_below. Qed.

(** Into a directory that already has an entry of that base name:
    [shutil.Error], and nothing is moved. *)
Lemma move_collides src f lg es :
  lookup plugins_output_path f = Some (Dir es) ->
  unrelated src plugins_output_path ->
  In (basename src) (names es) ->
  shutil_move src plugins_output_path (World f lg) =
  (Raise (shutil_Error_exists (plugins_output_path ++ [basename src])),
   World f (lg ++ [move_called src plugins_output_path])).
Proof.
  intros Ho Hu Hin. unfold shutil_move, record, set_fs. cbn [fs log].
  unfold isdir_at at 1. rewrite Ho.
  unfold samefile. rewrite (path_eqb_neq _ _ (unrelated_neq _ _ Hu)), andb_false_r.
  unfold exists_at. rewrite lookup_app, Ho. simpl.
  destruct (assoc (basename src) es) eqn:E; [reflexivity|].
  apply assoc_None_not_In in E. contradiction.
Qed.

(** Otherwise the source is unlinked where it was and linked under its
    base name in the directory. *)
Lemma move_lands src f lg es n :
  lookup plugins_output_path f = Some (Dir es) ->
  unrelated src plugins_output_path ->
  ~ In (basename src) (names es) ->
  lookup src f = Some n ->
  shutil_move src plugins_output_path (World f lg) =
  (Ok tt,
   World (update (plugins_output_path ++ [basename src]) (Some n) (update src None f))
         (lg ++ [move_called src plugins_output_path])).
Proof.
  intros Ho Hu Hin Hs. unfold shutil_move, record, set_fs. cbn [fs log].
  assert (Hd : isdir_at plugins_output_path f = true) by (unfold isdir_at; now rewrite Ho).
  rewrite Hd.
  unfold samefile. rewrite (path_eqb_neq _ _ (unrelated_neq _ _ Hu)), andb_false_r.
  assert (Hnew : lookup (plugins_output_path ++ [basename src]) f = None).
  { rewrite lookup_app, Ho. simpl.
    destruct (assoc (basename src) es) eqn:E; [|reflexivity].
    apply assoc_None_not_In in Hin. congruence. }
  unfold exists_at. rewrite Hnew.
  pose proof (unrelated_child _ _ (basename src) Hu) as Hu'.
  assert (Hps : exists ds, lookup (parent src) f = Some (Dir ds)).
  { apply isdir_lookup.
    destruct (list_eq_dec string_dec src []) as [->|Hne].
    - exfalso. apply (proj1 Hu). now exists plugins_output_path.
    - rewrite (app_removelast_last "" Hne) in Hs.
      now apply lookup_parent_isdir in Hs. }
  destruct Hps as [ds Hps].
  unfold os_rename, directory_error. rewrite Hps, parent_snoc, Ho, Hs, Hnew.
  rewrite (path_eqb_neq _ _ (unrelated_neq _ _ Hu')).
  rewrite (prefixb_false _ _ (proj1 Hu')).
  rewrite (prefixb_false _ _ (proj2 Hu')).
  reflexivity.
Qed.

(** *** What a library call can raise and log *)

(** The errors the script raises itself carry class [Exception]; the
    library raises its own classes. *)
Definition raised_by_script (e : exn) : bool :=
  match e with Exception _ => true | _ => false end.

Definition is_cleanup (e : event) : bool :=
  match e with cleanup_called _ => true | _ => false end.

Definition is_move (e : event) : bool :=
  match e with move_called _ _ => true | _ => false end.

Lemma shutil_move_log src dst w :
  log (snd (shutil_move src dst w)) = log w ++ [move_called src dst].
Proof.
  unfold shutil_move, record, set_fs.
  repeat match goal with
         | |- context [if ?b then _ else _] => destruct b
         | |- context [match os_rename ?a ?b ?c with _ => _ end] =>
             destruct (os_rename a b c)
         | |- context [match copytree_rmtree ?a ?b ?c ?d with _ => _ end] =>
             destruct (copytree_rmtree a b c d)
         | |- context [match lookup ?a ?b with _ => _ end] =>
             destruct (lookup a b) as [[?|?]|]
         end; reflexivity.
Qed.

Lemma os_rename_error src dst f e :
  os_rename src dst f = inl e -> raised_by_script e = false.
Proof.
  unfold os_rename, directory_error, unreachable.
  repeat match goal with
         | |- context [lookup ?a ?b] => destruct (lookup a b) as [[?|[|? ?]]|]
         | |- context [if ?b then _ else _] => destruct b
         end; intros H; inversion H; reflexivity.
Qed.

Lemma copytree_rmtree_error src dst es f e :
  copytree_rmtree src dst es f = inl e -> raised_by_script e = false.
Proof.
  unfold copytree_rmtree.
  repeat match goal with
         | |- context [if ?b then _ else _] => destruct b
         end; intros H; inversion H; reflexivity.
Qed.

Lemma shutil_move_error src dst w e w' :
  shutil_move src dst w = (Raise e, w') -> raised_by_script e = false.
Proof.
  unfold shutil_move, unreachable.
  repeat match goal with
         | |- context [if ?b then _ else _] => destruct b
         | |- context [match os_rename ?a ?b ?c with _ => _ end] =>
             destruct (os_rename a b c) eqn:?
         | |- context [match copytree_rmtree ?a ?b ?c ?d with _ => _ end] =>
             destruct (copytree_rmtree a b c d) eqn:?
         | |- context [match lookup ?a ?b with _ => _ end] =>
             destruct (lookup a b) as [[?|?]|]
         end; intros H; inversion H; subst; try reflexivity;
    solve [ eapply os_rename_error; eassumption
          | eapply copytree_rmtree_error; eassumption ].
Qed.

Lemma move_all_cons p l w :
  move_all (p :: l) w =
  match shutil_move p plugins_output_path w with
  | (Ok _, w') => move_all l w'
  | (Raise e, w') => (Raise e, w')
  end.
Proof. reflexivity. Qed.

(** The loop logs one call per attempted move, makes at least one
    attempt when there is a match, and raises library errors only. *)
Lemma move_all_effects l :
  forall w,
    (exists m, log (snd (move_all l w)) = log w ++ moves (firstn m l) /\
               (l <> [] -> 0 < m)) /\
    (forall e, fst (move_all l w) = Raise e -> raised_by_script e = false).
Proof.
  induction l as [|p l IH]; intros w.
  - split; [exists 0; simpl; rewrite app_nil_r; split; [reflexivity | congruence]|].
    simpl. discriminate.
  - rewrite move_all_cons.
    pose proof (shutil_move_log p plugins_output_path w) as Hlog.
    destruct (shutil_move p plugins_output_path w) as [[[]|e] w'] eqn:Hm;
      cbn [snd] in Hlog.
    + destruct (IH w') as [(m & Hm' & _) Herr]. split; [|exact Herr].
      exists (S m). rewrite Hm', Hlog. cbn [firstn moves map].
      rewrite <- app_assoc. split; [reflexivity | lia].
    + split.
      * exists 1. cbn [snd firstn moves map]. split; [exact Hlog | lia].
      * cbn [fst]. intros e' [= <-]. eapply shutil_move_error; eassumption.
Qed.

Lemma moves_not_cleanup l e : In e (moves l) -> is_cleanup e = false.
Proof. unfold moves. rewrite in_map_iff. intros (p & <- & _). reflexivity. Qed.

Lemma cleanup_effects t w :
  log (snd (TemporaryDirectory_cleanup t w)) = log w ++ [cleanup_called t] /\
  fs (snd (TemporaryDirectory_cleanup t w)) =
    (if isdir_at t (fs w) then update t None (fs w) else fs w) /\
  (forall e, fst (TemporaryDirectory_cleanup t w) = Raise e ->
             raised_by_script e = false).
Proof.
  unfold TemporaryDirectory_cleanup, isdir_at, record, set_fs.
  destruct (lookup t (fs w)) as [[?|?]|]; [| |destruct (through_file t (fs w))];
    cbn [fst snd fs log]; repeat split; auto; try discriminate;
    intros e [= <-]; reflexivity.
Qed.

Lemma cleanup_runs t f lg :
  isdir_at t f = true ->
  TemporaryDirectory_cleanup t (World f lg) =
  (Ok tt, World (update t None f) (lg ++ [cleanup_called t])).
Proof.
  intros Hd. unfold TemporaryDirectory_cleanup, record, set_fs. cbn [fs log].
  destruct (isdir_lookup _ _ Hd) as [es ->]. reflexivity.
Qed.

(** The result and the final world of a run that starts in [f0]. *)
Definition result (f0 : node) : outcome unit := fst (main (World f0 [])).
Definition final (f0 : node) : world := snd (main (World f0 [])).

(** The file system in which the glob is evaluated. *)
Definition globbed (f0 : node) : node := reset_fs (restored f0).

(** *** After the script: the exit of the interpreter *)

(** [TemporaryDirectory()] registers a finalizer for the directory it
    creates, and [cleanup()] detaches it.  When the script has ended, by
    its last statement or by an exception, the interpreter exits and runs
    the finalizer if it is still attached: the directory is deleted.  An
    error of the finalizer (the name no longer is a directory) is
    reported and changes nothing. *)
Definition interpreter_exit (name : path) (w : world) : world :=
  if existsb is_cleanup (log w) then w
  else if isdir_at name (fs w) then set_fs (update name None (fs w)) w
  else w.

(** The world the process leaves behind. *)
Definition exited (f0 : node) : world := interpreter_exit temp_name (final f0).

(** The file system [f] once the temporary directory, if there is one,
    has been deleted. *)
Definition released (f : node) : node :=
  if isdir_at temp_name f then update temp_name None f else f.

(** *** The loop *)

(** What the loop makes of the listing [es] of the output directory,
    given the base name and the node of each match in turn: entries are
    appended until a base name is already taken. *)
Fixpoint staged (es xs : entries) : option string * entries :=
  match xs with
  | [] => (None, es)
  | (b, n) :: xs' =>
      if in_dec string_dec b (names es) then (Some b, es)
      else staged (es ++ [(b, n)]) xs'
  end.

Definition loop_outcome (collision : option string) : outcome unit :=
  match collision with
  | None => Ok tt
  | Some b => Raise (shutil_Error_exists (plugins_output_path ++ [b]))
  end.

(** [x] is what match [p] contributes: its base name and the node it
    holds in [f], unless the name is already taken in [es]. *)
Definition contributes (f : node) (es : entries) (p : path) (x : string * node) : Prop :=
  below_temp p /\ fst x = basename p /\
  (lookup p f = Some (snd x) \/ In (fst x) (names es)).

Section Moves.

(** The temporary directory and the output directory lie apart. *)
Hypothesis temp_apart : unrelated temp_name plugins_output_path.

Lemma below_temp_apart p : below_temp p -> unrelated p plugins_output_path.
Proof.
  intros (r & -> & _).
  apply unrelated_sym, unrelated_below, unrelated_sym, temp_apart.
Qed.

Lemma below_temp_distinct p q :
  below_temp p -> below_temp q -> p <> q -> unrelated p q.
Proof.
  intros (r & -> & Hr) (r' & -> & Hr') Hne.
  split; intros H; apply prefix_same_length in H;
    try (rewrite !List.length_app; lia); congruence.
Qed.

Lemma below_temp_not_root p : below_temp p -> p <> [].
Proof.
  intros (r & -> & Hr) H. apply app_eq_nil in H as [_ ->]. discriminate.
Qed.

Lemma landed p f es n :
  lookup plugins_output_path f = Some (Dir es) ->
  below_temp p ->
  ~ In (basename p) (names es) ->
  let f2 := update (plugins_output_path ++ [basename p]) (Some n) (update p None f) in
  lookup plugins_output_path f2 = Some (Dir (es ++ [(basename p, n)])) /\
  lookup p f2 = None /\
  (forall z, below_temp z -> z <> p -> lookup z f2 = lookup z f) /\
  isdir_at temp_name f2 = isdir_at temp_name f.
Proof.
  intros Ho Hp Hin f2. subst f2.
  pose proof (below_temp_apart _ Hp) as Hu.
  repeat split.
  - rewrite (lookup_update_parent _ _ _ _ es).
    + simpl. now rewrite set_entry_fresh.
    + rewrite lookup_update_unrelated; assumption.
  - rewrite lookup_update_unrelated.
    + rewrite <- (app_nil_r p) at 1.
      apply lookup_remove_below, below_temp_not_root, Hp.
    + apply unrelated_sym, unrelated_child, Hu.
  - intros z Hz Hne.
    rewrite lookup_update_unrelated
      by (apply unrelated_sym, unrelated_child, below_temp_apart, Hz).
    apply lookup_update_unrelated, below_temp_distinct; auto.
  - unfold isdir_at at 1.
    rewrite lookup_update_unrelated
      by (apply unrelated_sym, unrelated_child, temp_apart).
    destruct Hp as (r & -> & Hr).
    apply isdir_update_above. destruct r; [discriminate | congruence].
Qed.

Lemma names_app es es' : names (es ++ es') = names es ++ names es'.
Proof. apply map_app. Qed.

Lemma moves_app l l' : moves (l ++ l') = moves l ++ moves l'.
Proof. apply map_app. Qed.

(** The loop carries out [staged]. *)
Lemma move_all_staged l :
  forall xs f es lg,
    lookup plugins_output_path f = Some (Dir es) ->
    Forall2 (contributes f es) l xs ->
    exists f' m,
      move_all l (World f lg) =
        (loop_outcome (fst (staged es xs)), World f' (lg ++ moves (firstn m l))) /\
      lookup plugins_output_path f' = Some (Dir (snd (staged es xs))) /\
      isdir_at temp_name f' = isdir_at temp_name f /\
      (forall z, below_temp z -> lookup z f = None -> lookup z f' = None) /\
      (fst (staged es xs) = None ->
       m = List.length l /\ forall p, In p l -> lookup p f' = None).
Proof.
  induction l as [|p l IH]; intros xs f es lg Ho HF; inversion HF; subst.
  - exists f, 0. simpl. rewrite app_nil_r. repeat split; auto. intros _ [].
  - rename y into x. rename l' into xs'.
    destruct x as [b n].
    destruct H1 as (Hp & Hb & Hsrc). cbn [fst snd] in Hb, Hsrc. subst b.
    unfold move_all. cbn [for_each staged]. unfold bind.
    destruct (in_dec string_dec (basename p) (names es)) as [Hin|Hin].
    + rewrite (move_collides _ _ _ _ Ho (below_temp_apart _ Hp) Hin).
      exists f, 1. cbn [fst snd loop_outcome firstn moves map].
      repeat split; auto; discriminate.
    + destruct Hsrc as [Hsrc|Hsrc]; [|contradiction].
      rewrite (move_lands _ _ _ _ _ Ho (below_temp_apart _ Hp) Hin Hsrc).
      destruct (landed p f es n Ho Hp Hin) as (Ho2 & Hgone & Hframe & Htemp).
      set (f2 := update (plugins_output_path ++ [basename p]) (Some n) (update p None f)) in *.
      destruct (IH xs' f2 (es ++ [(basename p, n)])
                  (lg ++ [move_called p plugins_output_path]) Ho2)
        as (f' & m & Hrun & Ho' & Htemp' & Habsent & Hok).
      { eapply Forall2_impl; [|exact H3].
        intros q x (Hq & Hx & Hsrcq). repeat split; auto.
        rewrite names_app. destruct Hsrcq as [Hsrcq|Hsrcq].
        - destruct (list_eq_dec string_dec q p) as [->|Hne].
          + right. rewrite Hx. apply in_or_app. right. now left.
          + left. rewrite Hframe; auto.
        - right. apply in_or_app. now left. }
      exists f', (S m). fold (move_all l). rewrite Hrun.
      cbn [firstn moves map]. rewrite <- app_assoc. cbn [app].
      refine (conj eq_refl (conj Ho' (conj _ (conj _ _)))).
      * congruence.
      * intros z Hz Hnone. apply Habsent; auto.
        destruct (list_eq_dec string_dec z p) as [->|Hne]; auto.
        rewrite Hframe; auto.
      * intros Hnil. destruct (Hok Hnil) as [-> Hgone']. split; [reflexivity|].
        intros q [<-|Hq]; [apply Habsent|]; auto.
Qed.

End Moves.

(** *** The listing the loop builds *)

Lemma staged_fresh xs :
  forall es, NoDup (names es ++ names xs) -> staged es xs = (None, es ++ xs).
Proof.
  induction xs as [|[b n] xs IH]; intros es H; cbn [staged].
  - now rewrite app_nil_r.
  - cbn [names map fst] in H. fold (names xs) in H.
    destruct (in_dec string_dec b (names es)) as [Hin|Hin].
    + exfalso. apply NoDup_remove_2 in H. apply H, in_or_app. now left.
    + rewrite IH.
      * now rewrite <- app_assoc.
      * rewrite names_app. cbn [names map fst]. rewrite <- app_assoc. exact H.
Qed.

Lemma staged_no_collision xs :
  forall es,
    fst (staged es xs) = None ->
    snd (staged es xs) = es ++ xs /\
    NoDup (names xs) /\
    (forall b, In b (names xs) -> ~ In b (names es)).
Proof.
  induction xs as [|[b n] xs IH]; intros es H; cbn [staged] in *.
  - rewrite app_nil_r. repeat split; [constructor | intros b []].
  - destruct (in_dec string_dec b (names es)) as [Hin|Hin]; [discriminate|].
    destruct (IH _ H) as (Hsnd & Hnd & Hdisj).
    rewrite Hsnd, <- app_assoc. split; [reflexivity|].
    cbn [names map fst]. fold (names xs). split.
    + constructor; [|exact Hnd].
      intros Hb. apply (Hdisj b Hb). rewrite names_app. apply in_or_app.
      right. now left.
    + intros c [<-|Hc]; [exact Hin|].
      intros Hc'. apply (Hdisj c Hc). rewrite names_app. apply in_or_app. now left.
Qed.

(** The first repeated base name stops the loop. *)
Lemma staged_collision pre x post :
  forall es,
    NoDup (names es ++ names pre) ->
    In (fst x) (names es ++ names pre) ->
    staged es (pre ++ x :: post) = (Some (fst x), es ++ pre).
Proof.
  induction pre as [|[b n] pre IH]; intros es Hnd Hin; cbn [app staged].
  - destruct x as [b n]. cbn [fst] in *. cbn [names map] in Hin.
    rewrite !app_nil_r in *.
    destruct (in_dec string_dec b (names es)); [reflexivity | contradiction].
  - cbn [names map fst] in Hnd, Hin. fold (names pre) in Hnd, Hin.
    destruct (in_dec string_dec b (names es)) as [Hb|Hb].
    + exfalso. apply NoDup_remove_2 in Hnd. apply Hnd, in_or_app. now left.
    + rewrite IH.
      * now rewrite <- app_assoc.
      * rewrite names_app. cbn [names map fst]. now rewrite <- app_assoc.
      * rewrite names_app. cbn [names map fst]. now rewrite <- app_assoc.
Qed.

(** What a match contributes to the output directory: its base name and
    the node it holds when the glob is evaluated. *)
Definition artifact (f : node) (p : path) : string * node :=
  (basename p, match lookup p f with Some n => n | None => Dir [] end).

Lemma names_artifacts f l : names (map (artifact f) l) = map basename l.
Proof. unfold names. rewrite map_map. reflexivity. Qed.

Lemma matched_contributes f es :
  Forall2 (contributes f es) (matched f) (map (artifact f) (matched f)).
Proof.
  pose proof (matched_shape f) as Hshape.
  pose proof (matched_below_temp f) as Hbelow.
  induction (matched f) as [|p l IH]; cbn [map]; constructor.
  - destruct (Hshape p (or_introl eq_refl)) as (x & n & v & _ & _ & Hv).
    inversion Hbelow; subst.
    unfold contributes, artifact. cbn [fst snd]. rewrite Hv. auto.
  - apply IH.
    + intros q Hq. apply Hshape. now right.
    + now inversion Hbelow.
Qed.

(** *** The four ways a run can go *)

Lemma gtb_false_le z : (z >? 0)%Z = false <-> (z <= 0)%Z.
Proof. rewrite Z.gtb_ltb, Z.ltb_ge. reflexivity. Qed.

Lemma gtb_true_gt z : (z >? 0)%Z = true <-> (z > 0)%Z.
Proof. rewrite Z.gtb_ltb, Z.ltb_lt. lia. Qed.

Lemma run_restore_failed f0 :
  (returncode f0 > 0)%Z ->
  main (World f0 []) =
  (Raise RESTORE_FAILED, World (restored f0) (restore_log f0)).
Proof.
  intros H. rewrite main_phases. cbv zeta.
  apply gtb_true_gt in H. now rewrite H.
Qed.

Lemma run_reset_refused f0 :
  (returncode f0 <= 0)%Z ->
  resettable (restored f0) = false ->
  exists e,
    main (World f0 []) =
    (Raise e, World (restored f0)
                    (restore_log f0 ++ [mkdir_called plugins_output_path])) /\
    raised_by_script e = false.
Proof.
  intros Hrc Hr. rewrite main_phases. cbv zeta.
  apply gtb_false_le in Hrc. rewrite Hrc.
  destruct (reset_refused _ (restore_log f0) Hr) as (e & -> & He).
  exists e. split; [reflexivity|].
  destruct He as [->|[->| ->]]; reflexivity.
Qed.

Lemma run_download_failed f0 :
  (returncode f0 <= 0)%Z ->
  resettable (restored f0) = true ->
  List.length (matched (globbed f0)) < EXPECTED_PLUGIN_COUNT ->
  main (World f0 []) =
  (Raise DOWNLOAD_FAILED,
   World (globbed f0) (restore_log f0 ++ reset_log (restored f0))).
Proof.
  intros Hrc Hr Hlen. rewrite main_phases. cbv zeta.
  apply gtb_false_le in Hrc. rewrite Hrc, (reset_runs _ _ Hr). cbn [fs].
  fold (globbed f0). apply Nat.ltb_lt in Hlen. now rewrite Hlen.
Qed.

Lemma run_moves f0 :
  (returncode f0 <= 0)%Z ->
  resettable (restored f0) = true ->
  EXPECTED_PLUGIN_COUNT <= List.length (matched (globbed f0)) ->
  main (World f0 []) =
  match move_all (matched (globbed f0))
          (World (globbed f0) (restore_log f0 ++ reset_log (restored f0))) with
  | (Raise e, w4) => (Raise e, w4)
  | (Ok _, w4) => TemporaryDirectory_cleanup temp_name w4
  end.
Proof.
  intros Hrc Hr Hlen. rewrite main_phases. cbv zeta.
  apply gtb_false_le in Hrc. rewrite Hrc, (reset_runs _ _ Hr). cbn [fs].
  fold (globbed f0). apply Nat.ltb_ge in Hlen. now rewrite Hlen.
Qed.

(** A match exists only in a temporary directory that exists. *)
Lemma matched_temp_isdir f :
  matched f <> [] -> isdir_at temp_name f = true.
Proof. unfold matched. destruct (isdir_at temp_name f); congruence. Qed.

(** After the reset nothing is left below the output path, so a match
    shows that the temporary directory is not inside the output
    directory. *)
Lemma match_keeps_temp_outside f :
  resettable f = true -> matched (reset_fs f) <> [] ->
  ~ prefix plugins_output_path temp_name.
Proof.
  intros Hr Hne [r Hr'].
  pose proof (reset_leaves_empty_directory _ Hr) as Ho.
  pose proof (matched_temp_isdir _ Hne) as Hd.
  destruct r as [|c r].
  - rewrite app_nil_r in Hr'. apply Hne. unfold matched. rewrite Hd.
    unfold DLL_PATTERN. cbn [select_from]. unfold scandir. rewrite Hr', Ho.
    reflexivity.
  - unfold isdir_at in Hd. rewrite Hr', lookup_app, Ho in Hd. discriminate.
Qed.

Lemma enough_matches_apart f0 :
  ~ prefix temp_name plugins_output_path ->
  resettable (restored f0) = true ->
  EXPECTED_PLUGIN_COUNT <= List.length (matched (globbed f0)) ->
  unrelated temp_name plugins_output_path.
Proof.
  intros Hout Hr Hlen. split; [exact Hout|].
  apply (match_keeps_temp_outside _ Hr). fold (globbed f0). intros E.
  rewrite E in Hlen. unfold EXPECTED_PLUGIN_COUNT in Hlen. cbn in Hlen. lia.
Qed.

(** With enough matches the run is the loop, then the cleanup. *)
Lemma run_staged f0 :
  unrelated temp_name plugins_output_path ->
  (returncode f0 <= 0)%Z ->
  resettable (restored f0) = true ->
  EXPECTED_PLUGIN_COUNT <= List.length (matched (globbed f0)) ->
  let l := matched (globbed f0) in
  let xs := map (artifact (globbed f0)) l in
  let lg := restore_log f0 ++ reset_log (restored f0) in
  exists f2 m,
    move_all l (World (globbed f0) lg) =
      (loop_outcome (fst (staged [] xs)), World f2 (lg ++ moves (firstn m l))) /\
    main (World f0 []) =
      match fst (staged [] xs) with
      | None => (Ok tt, World (update temp_name None f2)
                              (lg ++ moves l ++ [cleanup_called temp_name]))
      | Some b => (Raise (shutil_Error_exists (plugins_output_path ++ [b])),
                   World f2 (lg ++ moves (firstn m l)))
      end /\
    lookup plugins_output_path f2 = Some (Dir (snd (staged [] xs))) /\
    lookup plugins_output_path (fs (final f0)) = Some (Dir (snd (staged [] xs))) /\
    (fst (staged [] xs) = None -> forall p, In p l -> lookup p f2 = None).
Proof.
  intros Hapart Hrc Hr Hlen l xs lg.
  pose proof (reset_leaves_empty_directory _ Hr) as Ho. fold (globbed f0) in Ho.
  destruct (move_all_staged Hapart l xs (globbed f0) [] lg Ho
              (matched_contributes _ _))
    as (f2 & m & Hrun & Ho2 & Htemp & _ & Hok).
  assert (Hd : isdir_at temp_name f2 = true).
  { rewrite Htemp. apply matched_temp_isdir. intros E.
    rewrite E in Hlen. unfold EXPECTED_PLUGIN_COUNT in Hlen. cbn in Hlen. lia. }
  assert (Hmain : main (World f0 []) =
      match fst (staged [] xs) with
      | None => (Ok tt, World (update temp_name None f2)
                              (lg ++ moves l ++ [cleanup_called temp_name]))
      | Some b => (Raise (shutil_Error_exists (plugins_output_path ++ [b])),
                   World f2 (lg ++ moves (firstn m l)))
      end).
  { rewrite (run_moves _ Hrc Hr Hlen). fold l lg. rewrite Hrun.
    destruct (fst (staged [] xs)) eqn:E; cbn [loop_outcome]; [reflexivity|].
    destruct (Hok eq_refl) as [-> _]. rewrite firstn_all.
    rewrite (cleanup_runs _ _ _ Hd). now rewrite <- app_assoc. }
  exists f2, m. repeat split; auto.
  - unfold final. rewrite Hmain.
    destruct (fst (staged [] xs)); cbn [snd fs]; [exact Ho2|].
    rewrite lookup_update_unrelated; assumption.
  - intros Hnone. now apply Hok.
Qed.

(** The two errors of the script and when each is raised. *)
Lemma script_error_classes f0 e :
  result f0 = Raise e -> raised_by_script e = true ->
  (e = RESTORE_FAILED /\ (returncode f0 > 0)%Z) \/
  (e = DOWNLOAD_FAILED /\ (returncode f0 <= 0)%Z /\
   resettable (restored f0) = true /\
   List.length (matched (globbed f0)) < EXPECTED_PLUGIN_COUNT).
Proof.
  unfold result. intros Hres Hscript.
  destruct (Z_gt_le_dec (returncode f0) 0) as [Hrc|Hrc].
  { left. rewrite (run_restore_failed _ Hrc) in Hres. cbn in Hres.
    split; [congruence | assumption]. }
  destruct (resettable (restored f0)) eqn:Hr.
  2:{ destruct (run_reset_refused _ Hrc Hr) as (e' & Hrun & He').
      rewrite Hrun in Hres. cbn in Hres. congruence. }
  destruct (lt_dec (List.length (matched (globbed f0))) EXPECTED_PLUGIN_COUNT)
    as [Hlen|Hlen].
  { right. rewrite (run_download_failed _ Hrc Hr Hlen) in Hres. cbn in Hres.
    repeat split; auto. congruence. }
  exfalso. rewrite (run_moves _ Hrc Hr) in Hres by lia.
  match type of Hres with context [move_all ?l ?w] =>
    destruct (move_all_effects l w) as [_ Herr];
    destruct (move_all l w) as [[[]|e'] w4] eqn:Hm
  end.
  - destruct (cleanup_effects temp_name w4) as (_ & _ & Hc).
    rewrite (Hc e Hres) in Hscript. discriminate.
  - cbn [fst] in Hres, Herr. rewrite (Herr e Hres) in Hscript. discriminate.
Qed.

Lemma ok_run_conditions f0 :
  result f0 = Ok tt ->
  (returncode f0 <= 0)%Z /\
  resettable (restored f0) = true /\
  EXPECTED_PLUGIN_COUNT <= List.length (matched (globbed f0)).
Proof.
  unfold result. intros Hres.
  destruct (Z_gt_le_dec (returncode f0) 0) as [Hrc|Hrc].
  { rewrite (run_restore_failed _ Hrc) in Hres. discriminate. }
  destruct (resettable (restored f0)) eqn:Hr.
  2:{ destruct (run_reset_refused _ Hrc Hr) as (e' & Hrun & He').
      rewrite Hrun in Hres. discriminate. }
  destruct (lt_dec (List.length (matched (globbed f0))) EXPECTED_PLUGIN_COUNT)
    as [Hlen|Hlen].
  { rewrite (run_download_failed _ Hrc Hr Hlen) in Hres. discriminate. }
  repeat split; auto. lia.
Qed.

(** Events that change the output directory. *)
Definition touches_output (e : event) : bool :=
  match e with
  | rmtree_called _ | mkdir_called _ | move_called _ _ => true
  | _ => false
  end.

Lemma reset_fs_elsewhere f q :
  unrelated plugins_output_path q -> lookup q (reset_fs f) = lookup q f.
Proof.
  intros H. unfold reset_fs. rewrite lookup_update_unrelated by assumption.
  destruct (isdir_at plugins_output_path f); [|reflexivity].
  now apply lookup_update_unrelated.
Qed.

(** ** The claims *)

(** C2 (as amended).  The restore-failure error is raised exactly when
    the return code of the restore command is strictly positive.  Code 0
    does not raise it, and neither does a negative code, which is what
    [subprocess] reports for a child killed by a signal; among the codes
    that are not negative, it is raised exactly for those that are not
    zero. *)
Theorem restore_error_iff_positive_returncode f0 :
  (result f0 = Raise RESTORE_FAILED <-> (returncode f0 > 0)%Z) /\
  ((0 <= returncode f0)%Z ->
   (result f0 = Raise RESTORE_FAILED <-> returncode f0 <> 0%Z)).
Proof.
  assert (Hiff : result f0 = Raise RESTORE_FAILED <-> (returncode f0 > 0)%Z).
  { split.
    - intros H.
      destruct (script_error_classes _ _ H eq_refl) as [[_ ?]|[E _]]; auto.
      discriminate.
    - intros H. unfold result. now rewrite run_restore_failed. }
  split; [exact Hiff|]. intros Hnn. rewrite Hiff. lia.
Qed.

(** C4 (as amended).  When the return code of the restore command is
    strictly positive the run ends with the restore-failure error right
    after the command returned: the file system is the one the command
    left, no rmtree, mkdir or move was called, and the output path holds
    what it held before the run provided the restore command and the
    creation of the temporary directory did not touch it. *)
Theorem positive_returncode_leaves_output_untouched f0 :
  (returncode f0 > 0)%Z ->
  result f0 = Raise RESTORE_FAILED /\
  fs (final f0) = restored f0 /\
  log (final f0) = restore_log f0 /\
  Forall (fun e => touches_output e = false) (log (final f0)) /\
  (unrelated temp_name plugins_output_path ->
   lookup plugins_output_path (restored f0) =
     lookup plugins_output_path (update temp_name (Some (Dir [])) f0) ->
   lookup plugins_output_path (fs (final f0)) = lookup plugins_output_path f0).
Proof.
  intros Hrc. unfold result, final. rewrite (run_restore_failed _ Hrc). cbn [fst snd fs log].
  repeat split.
  - unfold restore_log. repeat constructor.
  - intros Hu ->. now apply lookup_update_unrelated.
Qed.

(** C5 (as amended).  When the restore command does not return a
    positive code, the reset can be carried out (the script directory
    exists and no regular file occupies the output path) and fewer than
    8 paths match, the run ends with the download error after the reset
    and before any move: the output directory exists and is empty. *)
Theorem too_few_matches_leave_empty_output f0 :
  (returncode f0 <= 0)%Z ->
  resettable (restored f0) = true ->
  List.length (matched (globbed f0)) < EXPECTED_PLUGIN_COUNT ->
  result f0 = Raise DOWNLOAD_FAILED /\
  log (final f0) = restore_log f0 ++ reset_log (restored f0) /\
  In (mkdir_called plugins_output_path) (log (final f0)) /\
  Forall (fun e => is_move e = false) (log (final f0)) /\
  fs (final f0) = globbed f0 /\
  lookup plugins_output_path (fs (final f0)) = Some (Dir []).
Proof.
  intros Hrc Hr Hlen. unfold result, final.
  rewrite (run_download_failed _ Hrc Hr Hlen). cbn [fst snd fs log].
  repeat split.
  - unfold reset_log. apply in_or_app. right. apply in_or_app. right. now left.
  - unfold restore_log, reset_log.
    destruct (isdir_at plugins_output_path (restored f0)); repeat constructor.
  - now apply reset_leaves_empty_directory.
Qed.

(** C3 (as amended).  When the restore command does not return a
    positive code and the reset can be carried out, the download error is
    raised if and only if fewer than 8 paths match the glob; with 8 or
    more the loop is entered and the first match is handed to
    [shutil.move]. *)
Theorem download_error_iff_fewer_than_expected f0 :
  (returncode f0 <= 0)%Z ->
  resettable (restored f0) = true ->
  EXPECTED_PLUGIN_COUNT = 8 /\
  (result f0 = Raise DOWNLOAD_FAILED <->
   List.length (matched (globbed f0)) < EXPECTED_PLUGIN_COUNT) /\
  (EXPECTED_PLUGIN_COUNT <= List.length (matched (globbed f0)) ->
   forall p, hd_error (matched (globbed f0)) = Some p ->
             In (move_called p plugins_output_path) (log (final f0))).
Proof.
  intros Hrc Hr. split; [reflexivity|]. split; [split|].
  - intros H. destruct (script_error_classes _ _ H eq_refl) as [[E _]|(_ & _ & _ & ?)]; auto.
    discriminate.
  - intros Hlen. unfold result. now rewrite run_download_failed.
  - intros Hlen p Hp. unfold final. rewrite (run_moves _ Hrc Hr Hlen).
    match goal with |- context [move_all ?l ?w] =>
      destruct (move_all_effects l w) as [(m & Hlog & Hpos) _];
      destruct (move_all l w) as [[[]|e'] w4] eqn:Hm
    end; cbn [snd] in *.
    all: destruct (matched (globbed f0)) as [|p' l] eqn:El; [discriminate|];
      injection Hp as ->;
      assert (0 < m) by (apply Hpos; discriminate);
      destruct m as [|m]; [lia|]; cbn [firstn moves map] in Hlog.
    + destruct (cleanup_effects temp_name w4) as (-> & _).
      rewrite Hlog. apply in_or_app. left. apply in_or_app. right. now left.
    + rewrite Hlog. apply in_or_app. right. now left.
Qed.

(** Resetting twice is resetting once. *)
Lemma reset_fs_idempotent f :
  resettable f = true -> reset_fs (reset_fs f) = reset_fs f.
Proof.
  intros Hr. pose proof (reset_leaves_empty_directory _ Hr) as Ho.
  unfold reset_fs at 1. unfold isdir_at. rewrite Ho.
  unfold reset_fs. destruct (isdir_at plugins_output_path f) eqn:Hd.
  - now rewrite 2 update_recreate.
  - rewrite update_recreate. rewrite update_remove_absent; [reflexivity|].
    unfold resettable, isfile_at, isdir_at in *.
    destruct (lookup plugins_output_path f) as [[?|?]|]; auto; try discriminate.
    rewrite andb_true_iff in Hr. destruct Hr; discriminate.
Qed.

(** C6 (as amended).  The reset succeeds whenever the script directory
    exists and the output path is absent or a directory: a directory is
    deleted with all it holds and an empty one is created in its place;
    nothing is deleted, and no error is raised, when nothing was there.
    Afterwards the path is an existing empty directory, and running the
    reset once more changes nothing. *)
Theorem reset_of_absent_or_directory f lg :
  resettable f = true ->
  reset_output_directory (World f lg) =
    (Ok tt, World (reset_fs f) (lg ++ reset_log f)) /\
  lookup plugins_output_path (reset_fs f) = Some (Dir []) /\
  (isdir_at plugins_output_path f = true ->
   reset_log f = [rmtree_called plugins_output_path; mkdir_called plugins_output_path]) /\
  (exists_at plugins_output_path f = false ->
   reset_log f = [mkdir_called plugins_output_path] /\
   reset_fs f = update plugins_output_path (Some (Dir [])) f) /\
  resettable (reset_fs f) = true /\
  reset_fs (reset_fs f) = reset_fs f.
Proof.
  intros Hr.
  pose proof (reset_leaves_empty_directory _ Hr) as Ho.
  assert (Hr2 : resettable (reset_fs f) = true).
  { unfold resettable, isfile_at. rewrite Ho.
    unfold plugins_output_path in Ho. apply lookup_parent_isdir in Ho.
    now rewrite Ho. }
  split; [now apply reset_runs|]. split; [exact Ho|]. split; [|split; [|split]].
  - intros Hd. unfold reset_log. now rewrite Hd.
  - intros He. unfold reset_log, reset_fs.
    assert (Hd : isdir_at plugins_output_path f = false).
    { destruct (isdir_at plugins_output_path f) eqn:E; auto.
      apply isdir_exists in E. congruence. }
    now rewrite Hd.
  - exact Hr2.
  - now apply reset_fs_idempotent.
Qed.

(** A regular file at the output path is not deleted: [os.mkdir] raises. *)
Lemma reset_refuses_regular_file f lg :
  isfile_at plugins_output_path f = true ->
  reset_output_directory (World f lg) =
  (Raise (FileExistsError plugins_output_path),
   World f (lg ++ [mkdir_called plugins_output_path])).
Proof.
  intros Hf.
  unfold reset_output_directory, bind, os_path_exists, os_path_isdir, ret.
  cbv beta. cbn [fs log].
  unfold isfile_at in Hf. unfold isdir_at, exists_at.
  destruct (lookup plugins_output_path f) as [[d|?]|] eqn:Ho; try discriminate.
  cbn [andb]. cbv iota. unfold os_mkdir, record, set_fs, exists_at. cbn [fs log].
  now rewrite Ho.
Qed.

Lemma pipeline_moves f0 :
  (returncode f0 <= 0)%Z ->
  resettable (restored f0) = true ->
  EXPECTED_PLUGIN_COUNT <= List.length (matched (globbed f0)) ->
  pipeline (World f0 []) =
  match move_all (matched (globbed f0))
          (World (globbed f0) (restore_log f0 ++ reset_log (restored f0))) with
  | (Raise e, w4) => (Raise e, w4)
  | (Ok _, w4) => (Ok temp_name, w4)
  end.
Proof.
  intros Hrc Hr Hlen. rewrite pipeline_phases. cbv zeta.
  apply gtb_false_le in Hrc. rewrite Hrc, (reset_runs _ _ Hr). cbn [fs].
  fold (globbed f0). apply Nat.ltb_ge in Hlen. now rewrite Hlen.
Qed.

Lemma pipeline_log_no_cleanup f0 :
  Forall (fun e => is_cleanup e = false) (log (snd (pipeline (World f0 [])))).
Proof.
  rewrite pipeline_phases. cbv zeta.
  assert (Hrl : Forall (fun e => is_cleanup e = false) (restore_log f0))
    by (unfold restore_log; repeat constructor).
  destruct (returncode f0 >? 0)%Z; [exact Hrl|].
  destruct (resettable (restored f0)) eqn:Hr.
  - rewrite (reset_runs _ _ Hr). cbn [fs].
    assert (Hrs : Forall (fun e => is_cleanup e = false)
                    (restore_log f0 ++ reset_log (restored f0))).
    { apply Forall_app. split; [exact Hrl|]. unfold reset_log.
      destruct (isdir_at plugins_output_path (restored f0)); repeat constructor. }
    destruct (List.length _ <? EXPECTED_PLUGIN_COUNT)%nat; [exact Hrs|].
    match goal with |- context [move_all ?l ?w] =>
      destruct (move_all_effects l w) as [(m & Hlog & _) _];
      destruct (move_all l w) as [[[]|e'] w4]
    end; cbn [snd log] in *; rewrite Hlog; apply Forall_app; split; auto;
      apply Forall_forall; intros e; apply moves_not_cleanup.
  - destruct (reset_refused _ (restore_log f0) Hr) as (e & -> & _). cbn [snd log].
    apply Forall_app. split; [exact Hrl | repeat constructor].
Qed.

Lemma pipeline_returns_temp f0 t :
  fst (pipeline (World f0 [])) = Ok t -> t = temp_name.
Proof.
  rewrite pipeline_phases. cbv zeta.
  destruct (returncode f0 >? 0)%Z; [discriminate|].
  destruct (reset_output_directory _) as [[[]|e] w3]; [|discriminate].
  destruct (List.length _ <? EXPECTED_PLUGIN_COUNT)%nat; [discriminate|].
  destruct (move_all _ w3) as [[[]|e] w4]; [|discriminate].
  cbn. congruence.
Qed.

(** The cleanup is logged exactly when the pipeline completed. *)
Lemma cleanup_logged f0 :
  existsb is_cleanup (log (final f0)) =
  match fst (pipeline (World f0 [])) with Ok _ => true | Raise _ => false end.
Proof.
  unfold final. rewrite main_after_pipeline.
  pose proof (pipeline_log_no_cleanup f0) as Hlog.
  destruct (pipeline (World f0 [])) as [[t|e] w'] eqn:Hp; cbn [fst snd] in *.
  - destruct (cleanup_effects t w') as (-> & _).
    rewrite existsb_app. cbn. now rewrite orb_true_r.
  - destruct (existsb is_cleanup (log w')) eqn:E; [|reflexivity].
    apply existsb_exists in E as (x & Hx & Hc).
    rewrite Forall_forall in Hlog. rewrite (Hlog x Hx) in Hc. discriminate.
Qed.


(** What the exit of the interpreter makes of the file system in which
    the script ended. *)
Lemma exited_fs f0 :
  fs (exited f0) =
  match fst (pipeline (World f0 [])) with
  | Ok _ => fs (final f0)
  | Raise _ => released (fs (final f0))
  end.
Proof.
  unfold exited, interpreter_exit, released. rewrite cleanup_logged.
  destruct (fst (pipeline (World f0 []))); [reflexivity|].
  destruct (isdir_at temp_name (fs (final f0))); reflexivity.
Qed.

Lemma exited_after_abort f0 e :
  result f0 = Raise e -> raised_by_script e = true ->
  fs (exited f0) = released (fs (final f0)).
Proof.
  intros H He. rewrite exited_fs.
  unfold result in H. rewrite main_after_pipeline in H.
  pose proof (pipeline_returns_temp f0) as Ht.
  destruct (pipeline (World f0 [])) as [[t|e'] w'] eqn:Hp; cbn [fst] in *;
    [|reflexivity].
  destruct (cleanup_effects t w') as (_ & _ & Herr).
  rewrite (Herr e H) in He. discriminate.
Qed.



Lemma assoc_nodup b n es :
  NoDup (names es) -> In (b, n) es -> assoc b es = Some n.
Proof.
  induction es as [|[k v] es IH]; intros Hnd Hin; [contradiction|].
  cbn [names map fst] in Hnd. inversion Hnd; subst. cbn [assoc].
  destruct Hin as [[= -> ->]|Hin].
  - now rewrite String.eqb_refl.
  - destruct (String.eqb k b) eqn:E; [|auto].
    apply String.eqb_eq in E; subst k. exfalso. apply H1.
    unfold names. change b with (fst (b, n)). now apply in_map.
Qed.

Lemma temp_not_root :
  unrelated temp_name plugins_output_path -> temp_name <> [].
Proof. intros [H _] E. apply H. rewrite E. now exists plugins_output_path. Qed.

Lemma artifacts_hold_matches f l :
  (forall p, In p l -> exists n, lookup p f = Some n) ->
  Forall2 (fun p e => lookup p f = Some (snd e)) l (map (artifact f) l).
Proof.
  induction l as [|p l IH]; intros H; cbn [map]; constructor.
  - destruct (H p (or_introl eq_refl)) as [n Hn].
    unfold artifact. rewrite Hn. reflexivity.
  - apply IH. intros q Hq. apply H. now right.
Qed.

Lemma artifacts_of_files f l :
  Forall (fun p => isfile_at p f = true) l ->
  Forall (fun e => is_file_node (snd e) = true) (map (artifact f) l).
Proof.
  induction 1 as [|p l Hp _ IH]; cbn [map]; constructor; auto.
  unfold isfile_at in Hp. unfold artifact.
  destruct (lookup p f) as [[d|?]|]; try discriminate. reflexivity.
Qed.

(** C1 (as amended).  A run completes exactly when the restore command
    does not return a positive code, the reset can be carried out (the
    script directory exists and no regular file occupies the output
    path), at least 8 paths match, and no two matches share a base name.
    After every run that completes the output directory exists and holds
    one entry per match, under the base name of the match and with what
    the match held, and nothing else; the entries are regular files when
    the matches are.  The output directory is taken not to lie inside
    the temporary directory, which is new when the run starts. *)
Theorem output_holds_exactly_the_matches f0 :
  ~ prefix temp_name plugins_output_path ->
  (result f0 = Ok tt <->
   (returncode f0 <= 0)%Z /\
   resettable (restored f0) = true /\
   EXPECTED_PLUGIN_COUNT <= List.length (matched (globbed f0)) /\
   NoDup (map basename (matched (globbed f0)))) /\
  (result f0 = Ok tt ->
   exists es,
     lookup plugins_output_path (fs (final f0)) = Some (Dir es) /\
     names es = map basename (matched (globbed f0)) /\
     Forall2 (fun p e => lookup p (globbed f0) = Some (snd e))
             (matched (globbed f0)) es /\
     (Forall (fun p => isfile_at p (globbed f0) = true) (matched (globbed f0)) ->
      Forall (fun e => is_file_node (snd e) = true) es)).
Proof.
  intros Houtside.
  assert (Hok : result f0 = Ok tt ->
                (returncode f0 <= 0)%Z /\
                resettable (restored f0) = true /\
                EXPECTED_PLUGIN_COUNT <= List.length (matched (globbed f0)) /\
                staged [] (map (artifact (globbed f0)) (matched (globbed f0))) =
                  (None, map (artifact (globbed f0)) (matched (globbed f0))) /\
                NoDup (map basename (matched (globbed f0)))).
  { intros Hres. destruct (ok_run_conditions _ Hres) as (Hrc & Hr & Hlen).
    pose proof (enough_matches_apart _ Houtside Hr Hlen) as Hu.
    destruct (run_staged f0 Hu Hrc Hr Hlen) as (f2 & m & _ & Hmain & _).
    cbv zeta in Hmain. unfold result in Hres. rewrite Hmain in Hres.
    destruct (fst (staged [] _)) eqn:Hst; [discriminate|].
    destruct (staged_no_collision _ [] Hst) as (Hsnd & Hnd & _).
    rewrite names_artifacts in Hnd. repeat split; auto.
    rewrite (surjective_pairing (staged [] _)), Hst, Hsnd. reflexivity. }
  split; [split|].
  - intros Hres. destruct (Hok Hres) as (? & ? & ? & _ & ?). auto.
  - intros (Hrc & Hr & Hlen & Hnd).
    pose proof (enough_matches_apart _ Houtside Hr Hlen) as Hu.
    destruct (run_staged f0 Hu Hrc Hr Hlen) as (f2 & m & _ & Hmain & _).
    cbv zeta in Hmain.
    rewrite staged_fresh in Hmain
      by (cbn [names map app]; now rewrite names_artifacts).
    unfold result. now rewrite Hmain.
  - intros Hres. destruct (Hok Hres) as (Hrc & Hr & Hlen & Hst & _).
    pose proof (enough_matches_apart _ Houtside Hr Hlen) as Hu.
    destruct (run_staged f0 Hu Hrc Hr Hlen) as (f2 & m & _ & _ & _ & Hout & _).
    cbv zeta in Hout. rewrite Hst in Hout. cbn [snd] in Hout.
    exists (map (artifact (globbed f0)) (matched (globbed f0))).
    split; [exact Hout|]. split; [apply names_artifacts|]. split.
    + apply artifacts_hold_matches. intros p Hp.
      destruct (matched_shape _ _ Hp) as (x & n & v & _ & _ & Hv). eauto.
    + apply artifacts_of_files.
Qed.

Lemma lookup_child q c f es :
  lookup q f = Some (Dir es) -> lookup (q ++ [c]) f = assoc c es.
Proof.
  intros H. rewrite lookup_app, H. simpl. now destruct (assoc c es).
Qed.

Lemma artifact_of_match f p :
  In p (matched f) ->
  exists n, lookup p f = Some n /\ artifact f p = (basename p, n).
Proof.
  intros Hp. destruct (matched_shape _ _ Hp) as (x & name & v & _ & _ & Hv).
  exists v. split; [exact Hv|]. unfold artifact. now rewrite Hv.
Qed.

(** C7.  Staging moves, it does not copy: after a run that completed,
    every match is gone from where the glob found it, four levels deep in
    the temporary directory, and the node it held is an entry of the
    output directory itself, under the last component of its path.  This
    holds when the loop has ended, before the temporary directory is
    deleted, and at the end of the run.  The output directory is taken
    not to lie inside the temporary directory, which is new when the run
    starts. *)
Theorem matches_are_moved_not_copied f0 p :
  ~ prefix temp_name plugins_output_path ->
  result f0 = Ok tt ->
  In p (matched (globbed f0)) ->
  exists x name n,
    p = temp_name ++ [x; "lib"; "netstandard2.0"; name] /\
    basename p = name /\
    lookup p (globbed f0) = Some n /\
    lookup p (fs (snd (pipeline (World f0 [])))) = None /\
    lookup (plugins_output_path ++ [name]) (fs (snd (pipeline (World f0 [])))) = Some n /\
    lookup p (fs (final f0)) = None /\
    lookup (plugins_output_path ++ [name]) (fs (final f0)) = Some n.
Proof.
  intros Houtside Hres Hp.
  destruct (ok_run_conditions _ Hres) as (Hrc & Hr & Hlen).
  pose proof (enough_matches_apart _ Houtside Hr Hlen) as Hu.
  destruct (run_staged f0 Hu Hrc Hr Hlen) as (f2 & m & Hloop & Hmain & Ho2 & _ & Hgone).
  cbv zeta in *.
  set (l := matched (globbed f0)) in *.
  set (xs := map (artifact (globbed f0)) l) in *.
  destruct (fst (staged [] xs)) as [b|] eqn:Hst.
  { unfold result in Hres. rewrite Hmain in Hres. discriminate. }
  destruct (staged_no_collision xs [] Hst) as (Hsnd & Hnd & _).
  rewrite Hsnd in Ho2. cbn [app] in Ho2.
  assert (Hpipe : fs (snd (pipeline (World f0 []))) = f2).
  { rewrite (pipeline_moves _ Hrc Hr Hlen). fold l. rewrite Hloop. reflexivity. }
  assert (Hfinal : fs (final f0) = update temp_name None f2).
  { unfold final. rewrite Hmain. reflexivity. }
  destruct (matched_shape _ _ Hp) as (x & name & v & Hshape & _ & Hv).
  assert (Hbase : basename p = name).
  { rewrite Hshape.
    change [x; "lib"; "netstandard2.0"; name] with ([x; "lib"; "netstandard2.0"] ++ [name]).
    rewrite app_assoc. apply basename_snoc. }
  assert (Hin : lookup (plugins_output_path ++ [name]) f2 = Some v).
  { rewrite (lookup_child _ _ _ _ Ho2). apply assoc_nodup; [exact Hnd|].
    subst xs. rewrite <- Hbase.
    replace (basename p, v) with (artifact (globbed f0) p)
      by (unfold artifact; now rewrite Hv).
    now apply in_map. }
  exists x, name, v. rewrite Hpipe, Hfinal.
  repeat split; auto.
  - rewrite Hshape. apply lookup_remove_below, temp_not_root, Hu.
  - rewrite lookup_update_unrelated; [exact Hin | apply unrelated_child, Hu].
Qed.

(** Among matches two of which share a base name there is a first one
    whose base name repeats an earlier one. *)
Lemma first_repeated_base_name (l : list path) :
  ~ NoDup (map basename l) ->
  exists pre q post,
    l = pre ++ q :: post /\
    NoDup (map basename pre) /\
    In (basename q) (map basename pre).
Proof.
  induction l as [|p l IH] using rev_ind; intros Hdup.
  - exfalso. apply Hdup. constructor.
  - destruct (NoDup_dec string_dec (map basename l)) as [Hnd|Hnd].
    + exists l, p, []. repeat split; auto.
      destruct (in_dec string_dec (basename p) (map basename l)) as [Hin|Hin]; auto.
      exfalso. apply Hdup. rewrite map_app. cbn [map].
      apply NoDup_app; [exact Hnd | repeat constructor; intros [] |].
      intros b Hb [<-|[]]. contradiction.
    + destruct (IH Hnd) as (pre & q & post & -> & Hpre & Hq).
      exists pre, q, (post ++ [p]). repeat split; auto.
      now rewrite <- app_assoc.
Qed.

(** C10.  When two matches share a base name, the move of the second
    raises [shutil.Error] and ends the run: the matches before it have
    been moved, the entry of that name in the output directory is still
    the first of the two, and the cleanup is not called.  [q] is the
    first match whose base name repeats an earlier one; later matches
    are never handed to [shutil.move].  The output directory is taken not
    to lie inside the temporary directory, which is new when the run
    starts. *)
Theorem repeated_base_name_aborts f0 pre q post :
  ~ prefix temp_name plugins_output_path ->
  (returncode f0 <= 0)%Z ->
  resettable (restored f0) = true ->
  EXPECTED_PLUGIN_COUNT <= List.length (matched (globbed f0)) ->
  matched (globbed f0) = pre ++ q :: post ->
  NoDup (map basename pre) ->
  In (basename q) (map basename pre) ->
  result f0 = Raise (shutil_Error_exists (plugins_output_path ++ [basename q])) /\
  ~ In (cleanup_called temp_name) (log (final f0)) /\
  lookup plugins_output_path (fs (final f0)) =
    Some (Dir (map (artifact (globbed f0)) pre)) /\
  exists p n,
    In p pre /\ basename p = basename q /\
    lookup p (globbed f0) = Some n /\
    lookup (plugins_output_path ++ [basename q]) (fs (final f0)) = Some n.
Proof.
  intros Houtside Hrc Hr Hlen Hl Hnd Hin.
  pose proof (enough_matches_apart _ Houtside Hr Hlen) as Hu.
  destruct (run_staged f0 Hu Hrc Hr Hlen) as (f2 & m & _ & Hmain & _ & Hout & _).
  cbv zeta in *.
  assert (Hst : staged [] (map (artifact (globbed f0)) (matched (globbed f0))) =
                (Some (basename q), map (artifact (globbed f0)) pre)).
  { rewrite Hl, map_app. cbn [map].
    rewrite staged_collision;
      cbn [app names map fst artifact]; rewrite ?names_artifacts; auto. }
  rewrite Hst in Hmain, Hout. cbn [fst snd] in *.
  split; [unfold result; now rewrite Hmain|]. split; [|split; [exact Hout|]].
  - intros Hc. unfold final in Hc. rewrite Hmain in Hc. cbn [snd log] in Hc.
    apply in_app_or in Hc as [Hc|Hc].
    + apply in_app_or in Hc as [Hc|Hc].
      * unfold restore_log in Hc. destruct Hc as [E|[E|[]]]; discriminate.
      * unfold reset_log in Hc.
        destruct (isdir_at plugins_output_path (restored f0));
          cbn in Hc; intuition discriminate.
    + apply moves_not_cleanup in Hc. discriminate.
  - apply in_map_iff in Hin as (p & Hb & Hp).
    assert (Hpm : In p (matched (globbed f0))).
    { rewrite Hl. apply in_or_app. now left. }
    destruct (artifact_of_match _ _ Hpm) as (n & Hn & Ha).
    exists p, n. repeat split; auto.
    rewrite (lookup_child _ _ _ _ Hout). apply assoc_nodup.
    + now rewrite names_artifacts.
    + rewrite <- Hb, <- Ha. now apply in_map.
Qed.

(** *** Two runs in a row *)

(** The glob reads the file system below its root only. *)
Lemma select_from_ext parts :
  forall root f g,
    (forall r, lookup (root ++ r) f = lookup (root ++ r) g) ->
    select_from parts root f = select_from parts root g.
Proof.
  induction parts as [|[m|name] rest IH]; intros root f g H; cbn [select_from].
  - reflexivity.
  - assert (Hs : scandir root f = scandir root g).
    { unfold scandir. specialize (H []). rewrite app_nil_r in H. now rewrite H. }
    rewrite Hs. apply flat_map_ext. intros e.
    destruct ((last_part rest || is_dir_node (snd e)) && m (fst e)); [|reflexivity].
    apply IH. intros r. rewrite <- app_assoc. apply H.
  - unfold exists_at, isdir_at. rewrite (H [name]).
    rewrite (IH (root ++ [name]) f g); [reflexivity|].
    intros r. rewrite <- app_assoc. apply H.
Qed.

(** What the restore command produced for the loop: the base name and
    the node of every match, in the order of enumeration. *)
Definition produced (f : node) : entries := map (artifact f) (matched f).

Lemma produced_ext f g :
  (forall r, lookup (temp_name ++ r) f = lookup (temp_name ++ r) g) ->
  produced f = produced g.
Proof.
  intros H. unfold produced.
  assert (Hm : matched f = matched g).
  { unfold matched, isdir_at. specialize (H []) as H0. rewrite app_nil_r in H0.
    rewrite H0. destruct (lookup temp_name g) as [[?|?]|]; auto.
    now apply select_from_ext. }
  rewrite Hm. apply map_ext_in. intros p Hp.
  destruct (matched_shape _ _ Hp) as (x & n & v & -> & _ & _).
  unfold artifact. now rewrite H.
Qed.

Lemma produced_after_reset f :
  unrelated temp_name plugins_output_path ->
  produced (reset_fs f) = produced f.
Proof.
  intros Hu. apply produced_ext. intros r.
  apply reset_fs_elsewhere, unrelated_below, unrelated_sym, Hu.
Qed.

(** What a run makes of the output path, given the return code of the
    restore command, whether the reset can be carried out, what the
    restore command left at the output path, and what it produced. *)
Definition output_after (rc : Z) (can_reset : bool)
    (before : option node) (xs : entries) : option node :=
  if (rc >? 0)%Z then before
  else if negb can_reset then before
  else if (List.length xs <? EXPECTED_PLUGIN_COUNT)%nat then Some (Dir [])
  else Some (Dir (snd (staged [] xs))).

Lemma output_after_run f0 :
  unrelated temp_name plugins_output_path ->
  lookup plugins_output_path (fs (final f0)) =
  output_after (returncode f0) (resettable (restored f0))
    (lookup plugins_output_path (restored f0)) (produced (restored f0)).
Proof.
  intros Hu. unfold output_after.
  rewrite <- (produced_after_reset _ Hu). fold (globbed f0).
  unfold produced at 1. rewrite length_map. fold (produced (globbed f0)).
  destruct (returncode f0 >? 0)%Z eqn:Hrc.
  { apply gtb_true_gt in Hrc. unfold final. now rewrite run_restore_failed. }
  apply gtb_false_le in Hrc.
  destruct (resettable (restored f0)) eqn:Hr; cbn [negb].
  2:{ destruct (run_reset_refused _ Hrc Hr) as (e & Hrun & _).
      unfold final. now rewrite Hrun. }
  destruct (List.length (matched (globbed f0)) <? EXPECTED_PLUGIN_COUNT)%nat eqn:Hlen.
  { apply Nat.ltb_lt in Hlen. unfold final.
    rewrite (run_download_failed _ Hrc Hr Hlen). cbn [snd fs].
    now apply reset_leaves_empty_directory. }
  apply Nat.ltb_ge in Hlen.
  destruct (run_staged f0 Hu Hrc Hr Hlen) as (f2 & m & _ & _ & _ & Hout & _).
  exact Hout.
Qed.

Lemma final_fs_without_reset f0 :
  (returncode f0 <= 0)%Z -> resettable (restored f0) = false ->
  fs (final f0) = restored f0.
Proof.
  intros Hrc Hr. destruct (run_reset_refused _ Hrc Hr) as (e & Hrun & _).
  unfold final. now rewrite Hrun.
Qed.

Lemma directory_is_resettable f es :
  lookup plugins_output_path f = Some (Dir es) -> resettable f = true.
Proof.
  intros H. unfold resettable, isfile_at. rewrite H.
  unfold plugins_output_path in H. apply lookup_parent_isdir in H.
  now rewrite H.
Qed.

(** *** The exit of the interpreter and the second run *)

(** The run gets as far as the loop. *)
Definition reaches_loop (f0 : node) : Prop :=
  (returncode f0 <= 0)%Z /\
  resettable (restored f0) = true /\
  EXPECTED_PLUGIN_COUNT <= List.length (matched (globbed f0)).

Lemma resettable_update_outside t v f :
  ~ prefix t plugins_output_path -> resettable (update t v f) = resettable f.
Proof.
  intros H. unfold resettable.
  destruct (kind_update_outside t script_path v f) as [-> _].
  { intros [r Hr]. apply H. exists (r ++ [PLUGINS_OUTPUT_DIRECTORY]).
    unfold plugins_output_path. rewrite Hr. now rewrite app_assoc. }
  now destruct (kind_update_outside t plugins_output_path v f H) as [_ ->].
Qed.

Lemma isdir_script_update_outside t v f :
  ~ prefix t plugins_output_path ->
  isdir_at script_path (update t v f) = isdir_at script_path f.
Proof.
  intros H. apply kind_update_outside.
  intros [r Hr]. apply H. exists (r ++ [PLUGINS_OUTPUT_DIRECTORY]).
  unfold plugins_output_path. rewrite Hr. now rewrite app_assoc.
Qed.

Lemma resettable_released f :
  ~ prefix temp_name plugins_output_path -> resettable (released f) = resettable f.
Proof.
  intros H. unfold released. destruct (isdir_at temp_name f); [|reflexivity].
  now apply resettable_update_outside.
Qed.

Lemma released_elsewhere f q :
  unrelated temp_name q -> lookup q (released f) = lookup q f.
Proof.
  intros H. unfold released. destruct (isdir_at temp_name f); [|reflexivity].
  now apply lookup_update_unrelated.
Qed.

Lemma exited_elsewhere f0 q :
  unrelated temp_name q -> lookup q (fs (exited f0)) = lookup q (fs (final f0)).
Proof.
  intros H. rewrite exited_fs.
  destruct (fst (pipeline (World f0 []))); [reflexivity|].
  now apply released_elsewhere.
Qed.

Lemma exited_script_directory f0 :
  ~ prefix temp_name plugins_output_path ->
  isdir_at script_path (fs (exited f0)) = isdir_at script_path (fs (final f0)).
Proof.
  intros H. rewrite exited_fs.
  destruct (fst (pipeline (World f0 []))); [reflexivity|].
  unfold released. destruct (isdir_at temp_name (fs (final f0))); [|reflexivity].
  now apply isdir_script_update_outside.
Qed.

Lemma exited_reset_refused f0 :
  (returncode f0 <= 0)%Z -> resettable (restored f0) = false ->
  fs (exited f0) = released (restored f0).
Proof.
  intros Hrc Hr. destruct (run_reset_refused _ Hrc Hr) as (e & Hmain & _).
  unfold exited, interpreter_exit, released, final. rewrite Hmain.
  cbn [snd fs log]. unfold restore_log. cbn [app existsb is_cleanup orb].
  destruct (isdir_at temp_name (restored f0)); reflexivity.
Qed.

(** With the temporary directory outside the output directory, the exit
    of the interpreter leaves the output path as the script left it. *)
Lemma exited_outside f0 :
  unrelated temp_name plugins_output_path ->
  lookup plugins_output_path (fs (exited f0)) =
  output_after (returncode f0) (resettable (restored f0))
    (lookup plugins_output_path (restored f0)) (produced (restored f0)).
Proof.
  intros Hu. rewrite (exited_elsewhere _ _ Hu). now apply output_after_run.
Qed.

(** With the temporary directory inside the output directory, a run that
    carries out the reset deletes the download with it. *)
Lemma exited_inside f0 :
  prefix plugins_output_path temp_name ->
  ~ prefix temp_name plugins_output_path ->
  lookup plugins_output_path (fs (exited f0)) =
  if (returncode f0 >? 0)%Z || negb (resettable (restored f0))
  then lookup plugins_output_path (released (restored f0))
  else Some (Dir []).
Proof.
  intros Hin Hout.
  destruct (returncode f0 >? 0)%Z eqn:Hrc; cbn [orb].
  { apply gtb_true_gt in Hrc.
    assert (Hres : result f0 = Raise RESTORE_FAILED)
      by (unfold result; now rewrite run_restore_failed).
    rewrite (exited_after_abort _ _ Hres eq_refl).
    unfold final. now rewrite run_restore_failed. }
  apply gtb_false_le in Hrc.
  destruct (resettable (restored f0)) eqn:Hr; cbn [negb].
  2:{ now rewrite exited_reset_refused. }
  assert (Hnone : matched (globbed f0) = []).
  { destruct (matched (globbed f0)) as [|p l] eqn:E; [reflexivity|].
    exfalso. apply (match_keeps_temp_outside _ Hr); [|exact Hin].
    fold (globbed f0). rewrite E. discriminate. }
  assert (Hlen : List.length (matched (globbed f0)) < EXPECTED_PLUGIN_COUNT).
  { rewrite Hnone. unfold EXPECTED_PLUGIN_COUNT. cbn. lia. }
  assert (Hres : result f0 = Raise DOWNLOAD_FAILED)
    by (unfold result; now rewrite run_download_failed).
  rewrite (exited_after_abort _ _ Hres eq_refl).
  unfold final. rewrite (run_download_failed _ Hrc Hr Hlen). cbn [snd fs].
  pose proof (reset_leaves_empty_directory _ Hr) as Hempty. fold (globbed f0) in Hempty.
  assert (Hgone : isdir_at temp_name (globbed f0) = false).
  { destruct Hin as [r Hr']. destruct r as [|c r].
    - exfalso. apply Hout. rewrite Hr', app_nil_r. apply prefix_refl.
    - unfold isdir_at. now rewrite Hr', lookup_app, Hempty. }
  unfold released. now rewrite Hgone.
Qed.

(** A temporary directory that is created under a new name, filled and
    deleted leaves the file system as it was. *)
Lemma fill_then_release packages f :
  lookup temp_name f = None ->
  released (update temp_name (Some (Dir packages))
              (update temp_name (Some (Dir [])) f)) = f.
Proof.
  intros Hnew. unfold released.
  destruct (isdir_at temp_name _) eqn:E.
  - rewrite !update_remove_after. now apply update_remove_absent.
  - destruct (list_eq_dec string_dec temp_name []) as [Hroot|Hne].
    + rewrite Hroot. reflexivity.
    + destruct (isdir_at (parent temp_name) f) eqn:Ep.
      * exfalso. unfold isdir_at in E.
        rewrite <- (app_nil_r temp_name) in E at 1.
        rewrite lookup_update_hit in E; [discriminate | exact Hne |].
        rewrite (app_removelast_last "" Hne) at 2.
        rewrite isdir_update_above; [exact Ep | discriminate].
      * rewrite (update_no_directory temp_name (Some (Dir [])) f Ep).
        exact (update_no_directory temp_name _ f Ep).
Qed.

(** ** Further properties of the script *)

(** *** What the glob returns *)

Lemma assoc_In c v es : assoc c es = Some v -> In (c, v) es.
Proof.
  induction es as [|[k w] es IH]; simpl; [discriminate|].
  destruct (String.eqb k c) eqn:E.
  - intros [= ->]. apply String.eqb_eq in E. subst k. now left.
  - intros H. right. auto.
Qed.


Lemma matched_basename f p :
  In p (matched f) -> endswith (basename p) ".dll" = true.
Proof.
  intros Hp. destruct (matched_shape _ _ Hp) as (x & n & v & -> & Hn & _).
  change [x; "lib"; "netstandard2.0"; n] with ([x; "lib"; "netstandard2.0"] ++ [n]).
  rewrite app_assoc, basename_snoc. exact Hn.
Qed.

(** *** What the script leaves alone *)

Lemma os_rename_frame src dst f f' q :
  os_rename src dst f = inr f' ->
  unrelated src q -> unrelated dst q ->
  lookup q f' = lookup q f.
Proof.
  intros H Hs Hd. revert H. unfold os_rename, directory_error.
  repeat match goal with
         | |- context [match lookup ?a ?b with _ => _ end] =>
             destruct (lookup a b) as [[?|[|? ?]]|]
         | |- context [if ?b then _ else _] => destruct b
         end; intros H; inversion H; subst; auto;
    rewrite !lookup_update_unrelated; auto.
Qed.

Lemma copytree_rmtree_frame src dst es f f' q :
  copytree_rmtree src dst es f = inr f' ->
  unrelated src q -> unrelated dst q ->
  lookup q f' = lookup q f.
Proof.
  intros H Hs Hd. revert H. unfold copytree_rmtree.
  repeat match goal with
         | |- context [if ?b then _ else _] => destruct b
         end; intros H; inversion H; subst.
  rewrite lookup_update_unrelated by assumption.
  now apply lookup_graft_unrelated.
Qed.

Lemma shutil_move_frame src dst w q :
  unrelated src q -> unrelated dst q ->
  lookup q (fs (snd (shutil_move src dst w))) = lookup q (fs w).
Proof.
  intros Hs Hd.
  assert (Hd' : forall b, unrelated (dst ++ [b]) q).
  { intros b. apply unrelated_sym, unrelated_below, unrelated_sym, Hd. }
  unfold shutil_move, record, set_fs.
  repeat match goal with
         | |- context [if ?b then _ else _] => destruct b
         | |- context [match os_rename ?a ?b ?c with _ => _ end] =>
             destruct (os_rename a b c) eqn:?
         | |- context [match copytree_rmtree ?a ?b ?c ?d with _ => _ end] =>
             destruct (copytree_rmtree a b c d) eqn:?
         | |- context [match lookup ?a ?b with _ => _ end] =>
             destruct (lookup a b) as [[?|?]|]
         end; cbn [snd fs]; auto;
    solve [ eapply os_rename_frame; eauto
          | eapply copytree_rmtree_frame; eauto ].
Qed.

Lemma move_all_frame l :
  forall w q,
    Forall (fun p => unrelated p q) l ->
    unrelated plugins_output_path q ->
    lookup q (fs (snd (move_all l w))) = lookup q (fs w).
Proof.
  induction l as [|p l IH]; intros w q Hl Ho; [reflexivity|].
  inversion Hl; subst. rewrite move_all_cons.
  pose proof (shutil_move_frame p plugins_output_path w q H1 Ho) as Hm.
  destruct (shutil_move p plugins_output_path w) as [[[]|e] w']; cbn [snd] in *.
  - rewrite IH; auto.
  - exact Hm.
Qed.

Lemma matched_unrelated f q :
  unrelated temp_name q -> Forall (fun p => unrelated p q) (matched f).
Proof.
  intros Hq. apply Forall_forall. intros p Hp.
  destruct (matched_shape _ _ Hp) as (x & n & v & -> & _ & _).
  apply unrelated_sym, unrelated_below, unrelated_sym, Hq.
Qed.

Lemma output_and_config_apart : unrelated plugins_output_path config_path.
Proof. apply unrelated_siblings. discriminate. Qed.

(** X2.  Whatever the run does and however it ends, the script itself
    changes nothing outside the output directory and the temporary
    directory: every other location holds at the end what the restore
    command left there.  In particular the configuration file next to the
    script is never modified. *)
Theorem script_touches_only_output_and_temp f0 :
  (forall q,
     unrelated plugins_output_path q -> unrelated temp_name q ->
     lookup q (fs (final f0)) = lookup q (restored f0)) /\
  (unrelated temp_name config_path ->
   lookup config_path (fs (final f0)) = lookup config_path (restored f0)).
Proof.
  assert (Hframe : forall q,
     unrelated plugins_output_path q -> unrelated temp_name q ->
     lookup q (fs (final f0)) = lookup q (restored f0)).
  { intros q Ho Ht. unfold final.
    destruct (Z_gt_le_dec (returncode f0) 0) as [Hrc|Hrc].
    { now rewrite (run_restore_failed _ Hrc). }
    destruct (resettable (restored f0)) eqn:Hr.
    2:{ destruct (run_reset_refused _ Hrc Hr) as (e & -> & _). reflexivity. }
    destruct (lt_dec (List.length (matched (globbed f0))) EXPECTED_PLUGIN_COUNT)
      as [Hlen|Hlen].
    { rewrite (run_download_failed _ Hrc Hr Hlen). cbn [snd fs].
      now apply reset_fs_elsewhere. }
    rewrite (run_moves _ Hrc Hr) by lia.
    match goal with |- context [move_all ?l ?w] =>
      pose proof (move_all_frame l w q (matched_unrelated _ _ Ht) Ho) as Hm;
      destruct (move_all l w) as [[[]|e] w4]
    end; cbn [snd fs] in Hm.
    - destruct (cleanup_effects temp_name w4) as (_ & -> & _).
      destruct (isdir_at temp_name (fs w4)).
      + rewrite lookup_update_unrelated by assumption.
        rewrite Hm. now apply reset_fs_elsewhere.
      + rewrite Hm. now apply reset_fs_elsewhere.
    - cbn [snd]. rewrite Hm. now apply reset_fs_elsewhere. }
  split; [exact Hframe|].
  intros Ht. apply Hframe; [apply output_and_config_apart | exact Ht].
Qed.

(** *** The order of the calls *)

Lemma move_all_ok_log l :
  forall w, fst (move_all l w) = Ok tt ->
            log (snd (move_all l w)) = log w ++ moves l.
Proof.
  induction l as [|p l IH]; intros w H.
  - simpl. now rewrite app_nil_r.
  - rewrite move_all_cons in *.
    pose proof (shutil_move_log p plugins_output_path w) as Hlog.
    destruct (shutil_move p plugins_output_path w) as [[[]|e] w']; [|discriminate].
    cbn [snd] in Hlog. rewrite (IH w' H), Hlog. cbn [moves map].
    now rewrite <- app_assoc.
Qed.

Lemma firstn_exact {A} (a b : list A) : firstn (List.length a) (a ++ b) = a.
Proof.
  rewrite firstn_app, Nat.sub_diag, firstn_all. cbn [firstn]. apply app_nil_r.
Qed.

(** The calls a run makes after the restore command has returned, when
    nothing stops it. *)
Definition remaining_calls (f0 : node) : list event :=
  reset_log (restored f0) ++ moves (matched (globbed f0))
  ++ [cleanup_called temp_name].

(** X3.  The calls are made in the order of the pipeline and none is
    repeated: the temporary directory is created once and the restore
    command is run once, on the configuration file next to the script
    and with the temporary directory as packages directory; what follows
    is an initial part of: rmtree of the output directory (if it was a
    directory), mkdir, one move per match in the order of the glob, the
    cleanup.  A run that completes makes all of these calls. *)
Theorem calls_follow_the_pipeline f0 :
  (exists k,
     log (final f0) = restore_log f0 ++ firstn k (remaining_calls f0)) /\
  (result f0 = Ok tt ->
   log (final f0) = restore_log f0 ++ remaining_calls f0).
Proof.
  unfold result, final, remaining_calls.
  destruct (Z_gt_le_dec (returncode f0) 0) as [Hrc|Hrc].
  { rewrite (run_restore_failed _ Hrc). cbn [fst snd log]. split; [|discriminate].
    exists 0. cbn [firstn]. now rewrite app_nil_r. }
  destruct (resettable (restored f0)) eqn:Hr.
  2:{ destruct (run_reset_refused _ Hrc Hr) as (e & -> & _). cbn [fst snd log].
      split; [|discriminate]. exists 1.
      assert (Hd : isdir_at plugins_output_path (restored f0) = false).
      { destruct (isdir_at plugins_output_path (restored f0)) eqn:Hd; auto.
        destruct (isdir_lookup _ _ Hd) as [es Hes].
        rewrite (directory_is_resettable _ _ Hes) in Hr. discriminate. }
      unfold reset_log. rewrite Hd. reflexivity. }
  destruct (lt_dec (List.length (matched (globbed f0))) EXPECTED_PLUGIN_COUNT)
    as [Hlen|Hlen].
  { rewrite (run_download_failed _ Hrc Hr Hlen). cbn [fst snd log].
    split; [|discriminate].
    exists (List.length (reset_log (restored f0))). now rewrite firstn_exact. }
  rewrite (run_moves _ Hrc Hr) by lia.
  match goal with |- context [move_all ?l ?w] =>
    destruct (move_all_effects l w) as [(m & Hlog & _) _];
    pose proof (move_all_ok_log l w) as Hok;
    destruct (move_all l w) as [[[]|e] w4]
  end; cbn [fst snd log] in *.
  - destruct (cleanup_effects temp_name w4) as (-> & _).
    rewrite (Hok eq_refl), <- !app_assoc.
    split; [|reflexivity].
    eexists. rewrite firstn_all. reflexivity.
  - split; [|discriminate]. rewrite Hlog.
    exists (List.length (reset_log (restored f0)
                         ++ moves (firstn m (matched (globbed f0))))).
    rewrite <- (firstn_skipn m (matched (globbed f0))) at 3.
    rewrite moves_app, <- !app_assoc.
    rewrite (app_assoc (reset_log (restored f0))
               (moves (firstn m (matched (globbed f0))))
               (moves (skipn m (matched (globbed f0))) ++ [cleanup_called temp_name])).
    now rewrite firstn_exact.
Qed.

(** *** How a run can end *)

(** What [os.mkdir] raises when the reset cannot be carried out. *)
Definition reset_error (f : node) : exn :=
  if isfile_at plugins_output_path f then FileExistsError plugins_output_path
  else if isfile_at script_path f || through_file script_path f
       then NotADirectoryError plugins_output_path
  else FileNotFoundError plugins_output_path.

Lemma reset_refused_exact f lg :
  resettable f = false ->
  reset_output_directory (World f lg) =
  (Raise (reset_error f), World f (lg ++ [mkdir_called plugins_output_path])).
Proof.
  unfold resettable, reset_error, reset_output_directory, bind,
    os_path_exists, os_path_isdir, shutil_rmtree, os_mkdir, ret, record, set_fs.
  cbn [fs log]. rewrite andb_false_iff, negb_false_iff.
  unfold isfile_at. intros H.
  destruct (lookup plugins_output_path f) as [[d|eo]|] eqn:Ho.
  - unfold exists_at, isdir_at. rewrite Ho. simpl. now rewrite Ho.
  - destruct H as [H|H]; [|discriminate].
    apply lookup_parent_isdir in Ho. congruence.
  - unfold exists_at, isdir_at. rewrite Ho. simpl. rewrite Ho.
    rewrite parent_output. unfold unreachable.
    destruct (lookup script_path f) as [[d|es]|] eqn:Hs.
    + reflexivity.
    + destruct H as [H|H]; [|discriminate].
      unfold isdir_at in H. rewrite Hs in H. discriminate.
    + destruct (through_file script_path f); reflexivity.
Qed.

(** X4.  When the restore command did not return a positive code but the
    reset cannot be carried out, the run ends in the error of [os.mkdir]:
    [FileExistsError] when a regular file occupies the output path,
    [NotADirectoryError] when the script directory, or a directory on the
    way to it, is a regular file, [FileNotFoundError] when the script
    directory cannot be reached because a component is missing.  When
    the exception leaves the script nothing has been deleted, created or
    moved: the file system is the one the restore command left, with the
    downloaded packages still in the temporary directory.  The exit of
    the interpreter then deletes the temporary directory, and changes
    nothing else. *)
Theorem refused_reset_changes_nothing f0 :
  (returncode f0 <= 0)%Z ->
  resettable (restored f0) = false ->
  fs (final f0) = restored f0 /\
  log (final f0) = restore_log f0 ++ [mkdir_called plugins_output_path] /\
  fs (exited f0) = released (restored f0) /\
  (isfile_at plugins_output_path (restored f0) = true ->
   result f0 = Raise (FileExistsError plugins_output_path)) /\
  (isfile_at script_path (restored f0) = true \/
   through_file script_path (restored f0) = true ->
   result f0 = Raise (NotADirectoryError plugins_output_path)) /\
  (exists_at script_path (restored f0) = false ->
   through_file script_path (restored f0) = false ->
   result f0 = Raise (FileNotFoundError plugins_output_path)).
Proof.
  intros Hrc Hr.
  assert (Hmain : main (World f0 []) =
            (Raise (reset_error (restored f0)),
             World (restored f0)
                   (restore_log f0 ++ [mkdir_called plugins_output_path]))).
  { rewrite main_phases. cbv zeta. apply gtb_false_le in Hrc.
    now rewrite Hrc, (reset_refused_exact _ _ Hr). }
  pose proof (exited_reset_refused _ Hrc Hr) as Hexit.
  unfold result, final. rewrite Hmain. cbn [fst snd fs log].
  split; [reflexivity|]. split; [reflexivity|]. split; [exact Hexit|].
  assert (Hnofile : isdir_at script_path (restored f0) = false ->
                    isfile_at plugins_output_path (restored f0) = false).
  { intros Hd. unfold isfile_at.
    destruct (lookup plugins_output_path (restored f0)) as [[d|?]|] eqn:Ho;
      try reflexivity.
    apply lookup_parent_isdir in Ho. congruence. }
  unfold reset_error. split; [|split].
  - intros H. now rewrite H.
  - intros H. rewrite Hnofile.
    + destruct H as [-> | ->]; [reflexivity | now rewrite orb_true_r].
    + unfold isdir_at, isfile_at in *.
      destruct H as [H|H].
      * destruct (lookup script_path (restored f0)) as [[?|?]|]; congruence.
      * now rewrite (through_file_lookup _ _ H).
  - intros He Ht. rewrite Hnofile.
    + rewrite Ht. unfold isfile_at, exists_at in *.
      destruct (lookup script_path (restored f0)) as [[?|?]|]; try discriminate.
      reflexivity.
    + unfold isdir_at, exists_at in *.
      destruct (lookup script_path (restored f0)) as [[?|?]|]; congruence.
Qed.

Lemma staged_collision_name xs :
  forall es b, fst (staged es xs) = Some b -> In b (names xs).
Proof.
  induction xs as [|[c n] xs IH]; intros es b H; cbn [staged] in H.
  - discriminate.
  - cbn [names map fst]. destruct (in_dec string_dec c (names es)).
    + injection H as ->. now left.
    + right. eapply IH. exact H.
Qed.

Lemma staged_incl xs :
  forall es, incl (snd (staged es xs)) (es ++ xs).
Proof.
  induction xs as [|[c n] xs IH]; intros es; cbn [staged].
  - rewrite app_nil_r. apply incl_refl.
  - destruct (in_dec string_dec c (names es)).
    + cbn [snd]. apply incl_appl, incl_refl.
    + intros e He. apply IH in He. rewrite <- app_assoc in He. exact He.
Qed.

(** The result of a run, case by case. *)
Lemma run_table f0 :
  ~ prefix temp_name plugins_output_path ->
  result f0 =
  if (returncode f0 >? 0)%Z then Raise RESTORE_FAILED
  else if negb (resettable (restored f0)) then Raise (reset_error (restored f0))
  else if (List.length (matched (globbed f0)) <? EXPECTED_PLUGIN_COUNT)%nat
       then Raise DOWNLOAD_FAILED
  else loop_outcome (fst (staged [] (produced (globbed f0)))).
Proof.
  intros Houtside. unfold result.
  destruct (returncode f0 >? 0)%Z eqn:Hrc.
  { apply gtb_true_gt in Hrc. now rewrite run_restore_failed. }
  apply gtb_false_le in Hrc.
  destruct (resettable (restored f0)) eqn:Hr; cbn [negb].
  2:{ rewrite main_phases. cbv zeta. apply gtb_false_le in Hrc.
      now rewrite Hrc, (reset_refused_exact _ _ Hr). }
  destruct (List.length (matched (globbed f0)) <? EXPECTED_PLUGIN_COUNT)%nat eqn:Hlen.
  { apply Nat.ltb_lt in Hlen. now rewrite run_download_failed. }
  apply Nat.ltb_ge in Hlen.
  pose proof (enough_matches_apart _ Houtside Hr Hlen) as Hu.
  destruct (run_staged f0 Hu Hrc Hr Hlen) as (f2 & m & _ & Hmain & _).
  cbv zeta in Hmain. rewrite Hmain. unfold produced.
  destruct (fst (staged [] _)); reflexivity.
Qed.

(** Once the temporary directory is there and the restore command has
    returned, a run ends in one of five ways. *)
Lemma launched_run_ends_in_one_of_five_ways f0 :
  ~ prefix temp_name plugins_output_path ->
  result f0 = Ok tt \/
  result f0 = Raise RESTORE_FAILED \/
  (resettable (restored f0) = false /\
   result f0 = Raise (reset_error (restored f0))) \/
  result f0 = Raise DOWNLOAD_FAILED \/
  (exists q,
     In q (matched (globbed f0)) /\
     result f0 = Raise (shutil_Error_exists (plugins_output_path ++ [basename q]))).
Proof.
  intros Houtside. rewrite (run_table _ Houtside).
  destruct (returncode f0 >? 0)%Z; [auto|].
  destruct (resettable (restored f0)); cbn [negb]; [|auto].
  destruct (List.length (matched (globbed f0)) <? EXPECTED_PLUGIN_COUNT)%nat; [auto|].
  destruct (fst (staged [] (produced (globbed f0)))) as [b|] eqn:Hst;
    cbn [loop_outcome]; [|auto].
  do 4 right. apply staged_collision_name in Hst.
  unfold produced in Hst. rewrite names_artifacts in Hst.
  apply in_map_iff in Hst as (q & <- & Hq). eauto.
Qed.

(** X6.  A run ends in [shutil.Error] exactly when it reaches the loop
    (the restore command did not return a positive code, the reset was
    carried out, at least 8 paths matched) and two matches share a base
    name. *)
Theorem shutil_error_iff_shared_base_name f0 :
  ~ prefix temp_name plugins_output_path ->
  ((exists d, result f0 = Raise (shutil_Error_exists d)) <->
   (returncode f0 <= 0)%Z /\
   resettable (restored f0) = true /\
   EXPECTED_PLUGIN_COUNT <= List.length (matched (globbed f0)) /\
   ~ NoDup (map basename (matched (globbed f0)))).
Proof.
  intros Houtside. rewrite (run_table _ Houtside).
  destruct (returncode f0 >? 0)%Z eqn:Hrc.
  { apply gtb_true_gt in Hrc. split; [intros [d H]; discriminate | lia]. }
  apply gtb_false_le in Hrc.
  destruct (resettable (restored f0)) eqn:Hr; cbn [negb].
  2:{ split; [|intros (_ & ? & _); discriminate].
      intros [d H]. unfold reset_error in H.
      repeat match type of H with
             | context [if ?b then _ else _] => destruct b
             end; discriminate. }
  destruct (List.length (matched (globbed f0)) <? EXPECTED_PLUGIN_COUNT)%nat eqn:Hlen.
  { apply Nat.ltb_lt in Hlen. split; [intros [d H]; discriminate | lia]. }
  apply Nat.ltb_ge in Hlen.
  destruct (fst (staged [] (produced (globbed f0)))) as [b|] eqn:Hst;
    cbn [loop_outcome].
  - split; [|eauto]. intros _. repeat split; auto. intros Hnd.
    unfold produced in Hst. rewrite staged_fresh in Hst; [discriminate|].
    cbn [names map app]. now rewrite names_artifacts.
  - split; [intros [d H]; discriminate|]. intros (_ & _ & _ & Hdup).
    exfalso. apply Hdup.
    destruct (staged_no_collision _ [] Hst) as (_ & Hnd & _).
    unfold produced in Hnd. now rewrite names_artifacts in Hnd.
Qed.

(** *** What is in the output directory, and what is left of the download *)

(** X7.  Once the reset has been carried out, whatever the output
    directory holds at the end of the run was downloaded by this run:
    every entry is a match, under its base name, which ends in [.dll],
    and with what the match held.  Nothing that was in the output
    directory before the run survives, whether the run completes or
    not. *)
Theorem output_holds_only_this_download f0 b n :
  ~ prefix temp_name plugins_output_path ->
  (returncode f0 <= 0)%Z ->
  resettable (restored f0) = true ->
  lookup (plugins_output_path ++ [b]) (fs (final f0)) = Some n ->
  endswith b ".dll" = true /\
  exists p,
    In p (matched (globbed f0)) /\
    basename p = b /\
    lookup p (globbed f0) = Some n.
Proof.
  intros Houtside Hrc Hr Hb.
  assert (Hout : exists es,
            lookup plugins_output_path (fs (final f0)) = Some (Dir es) /\
            incl es (produced (globbed f0))).
  { destruct (lt_dec (List.length (matched (globbed f0))) EXPECTED_PLUGIN_COUNT)
      as [Hlen|Hlen].
    - exists []. split; [|intros e []].
      unfold final. rewrite (run_download_failed _ Hrc Hr Hlen). cbn [snd fs].
      now apply reset_leaves_empty_directory.
    - assert (Hlen' : EXPECTED_PLUGIN_COUNT <= List.length (matched (globbed f0)))
        by lia.
      pose proof (enough_matches_apart _ Houtside Hr Hlen') as Hu.
      destruct (run_staged f0 Hu Hrc Hr Hlen') as (f2 & m & _ & _ & _ & Ho & _).
      cbv zeta in Ho. eexists. split; [exact Ho|].
      apply (staged_incl _ []). }
  destruct Hout as (es & Ho & Hincl).
  rewrite (lookup_child _ _ _ _ Ho) in Hb.
  apply assoc_In, Hincl in Hb. unfold produced in Hb.
  apply in_map_iff in Hb as (p & Hart & Hp).
  destruct (artifact_of_match _ _ Hp) as (n' & Hn' & Hart').
  rewrite Hart' in Hart. injection Hart as <- <-.
  split; [now apply (matched_basename (globbed f0))|].
  exists p. auto.
Qed.

(** X8.  After a run that completed the temporary directory is gone, and
    with it everything the restore command downloaded that did not
    match. *)
Theorem completed_run_removes_temporary_directory f0 r :
  ~ prefix temp_name plugins_output_path ->
  result f0 = Ok tt ->
  lookup (temp_name ++ r) (fs (final f0)) = None.
Proof.
  intros Houtside Hres.
  destruct (ok_run_conditions _ Hres) as (Hrc & Hr & Hlen).
  pose proof (enough_matches_apart _ Houtside Hr Hlen) as Hu.
  destruct (run_staged f0 Hu Hrc Hr Hlen) as (f2 & m & _ & Hmain & _).
  cbv zeta in Hmain. unfold result in Hres. unfold final.
  rewrite Hmain in *.
  destruct (fst (staged [] _)); [discriminate|]. cbn [snd fs].
  apply lookup_remove_below, temp_not_root, Hu.
Qed.

(** X9.  The reset comes after the restore: when the temporary directory
    lies inside the output directory (or is the output directory), the
    reset deletes what the restore command downloaded, no path matches,
    and the run ends in the download error with an empty output
    directory, however many files were downloaded. *)
Theorem temporary_directory_inside_output_is_wiped f0 :
  prefix plugins_output_path temp_name ->
  (returncode f0 <= 0)%Z ->
  resettable (restored f0) = true ->
  matched (globbed f0) = [] /\
  result f0 = Raise DOWNLOAD_FAILED /\
  lookup plugins_output_path (fs (final f0)) = Some (Dir []).
Proof.
  intros Hin Hrc Hr.
  assert (Hnone : matched (globbed f0) = []).
  { destruct (matched (globbed f0)) as [|p l] eqn:E; [reflexivity|].
    exfalso. apply (match_keeps_temp_outside _ Hr); [|exact Hin].
    fold (globbed f0). rewrite E. discriminate. }
  assert (Hlen : List.length (matched (globbed f0)) < EXPECTED_PLUGIN_COUNT).
  { rewrite Hnone. unfold EXPECTED_PLUGIN_COUNT. cbn. lia. }
  unfold result, final. rewrite (run_download_failed _ Hrc Hr Hlen).
  cbn [fst snd fs]. repeat split; auto.
  now apply reset_leaves_empty_directory.
Qed.

Lemma not_cleanup_in l t :
  Forall (fun e => is_cleanup e = false) l -> ~ In (cleanup_called t) l.
Proof.
  intros H Hin. rewrite Forall_forall in H. apply H in Hin. discriminate.
Qed.

(** X10.  The cleanup never fails: it is called exactly in the runs that
    complete.  A run that reaches it found matches in the temporary
    directory, which therefore still is a directory when it is
    deleted. *)
Theorem cleanup_called_iff_run_completes f0 :
  ~ prefix temp_name plugins_output_path ->
  (In (cleanup_called temp_name) (log (final f0)) <-> result f0 = Ok tt).
Proof.
  intros Houtside. unfold result, final.
  assert (Hrl : Forall (fun e => is_cleanup e = false) (restore_log f0))
    by (unfold restore_log; repeat constructor).
  assert (Hrs : Forall (fun e => is_cleanup e = false)
                  (restore_log f0 ++ reset_log (restored f0))).
  { apply Forall_app. split; [exact Hrl|]. unfold reset_log.
    destruct (isdir_at plugins_output_path (restored f0)); repeat constructor. }
  destruct (Z_gt_le_dec (returncode f0) 0) as [Hrc|Hrc].
  { rewrite (run_restore_failed _ Hrc). cbn [fst snd log].
    split; [|discriminate]. intros H. now apply not_cleanup_in in H. }
  destruct (resettable (restored f0)) eqn:Hr.
  2:{ destruct (run_reset_refused _ Hrc Hr) as (e & -> & _). cbn [fst snd log].
      split; [|discriminate]. intros H. apply not_cleanup_in in H; [easy|].
      apply Forall_app. split; [exact Hrl | repeat constructor]. }
  destruct (lt_dec (List.length (matched (globbed f0))) EXPECTED_PLUGIN_COUNT)
    as [Hlen|Hlen].
  { rewrite (run_download_failed _ Hrc Hr Hlen). cbn [fst snd log].
    split; [|discriminate]. intros H. now apply not_cleanup_in in H. }
  assert (Hlen' : EXPECTED_PLUGIN_COUNT <= List.length (matched (globbed f0))) by lia.
  pose proof (enough_matches_apart _ Houtside Hr Hlen') as Hu.
  destruct (run_staged f0 Hu Hrc Hr Hlen') as (f2 & m & _ & Hmain & _).
  cbv zeta in Hmain. rewrite Hmain.
  destruct (fst (staged [] _)); cbn [fst snd log].
  - split; [|discriminate]. intros H. apply not_cleanup_in in H; [easy|].
    apply Forall_app. split; [exact Hrs|].
    apply Forall_forall. intros e. apply moves_not_cleanup.
  - split; [reflexivity|]. intros _.
    apply in_or_app. right. apply in_or_app. right. now left.
Qed.

End Script.

(** ** Every way a run can end *)

(** The script in any environment, by the answers to its two calls. *)
Lemma main_in_answers script_path env f0 :
  main_in script_path env (World f0 []) =
  match temporary_directory env with
  | inl e => (Raise e, World f0 [])
  | inr name =>
      let f1 := update name (Some (Dir [])) f0 in
      match run_nuget env (config_path script_path) name f1 with
      | inl e => (Raise e, World f1 [TemporaryDirectory_created name])
      | inr answer => main script_path name (fun _ _ _ => answer) (World f0 [])
      end
  end.
Proof.
  unfold main, main_in, pipeline_in, launched, bind,
    tempfile_TemporaryDirectory, subprocess_run_nuget, record, set_fs.
  cbn [fs log temporary_directory run_nuget].
  destruct (temporary_directory env) as [e|name]; [reflexivity|].
  cbv zeta. destruct (run_nuget env _ name _) as [e|[rc fr]]; reflexivity.
Qed.

(** X5.  On a host of regular files and directories, where a library
    call fails only for what is or is not in the tree, a run ends in one
    of seven ways and in no other.  [tempfile] cannot provide the
    temporary directory, or [subprocess.run] cannot launch the command
    ([FileNotFoundError] when [nuget] is not on the search path): the
    script ends with that exception.  Otherwise the run completes, or it
    raises the restore error, the error of [os.mkdir] at the output path,
    the download error, or [shutil.Error] for an entry of the output
    directory named like a match. *)
Theorem run_ends_in_one_of_seven_ways script_path env f0 :
  (forall name, temporary_directory env = inr name ->
                ~ prefix name (plugins_output_path script_path)) ->
  let out := plugins_output_path script_path in
  let r := fst (main_in script_path env (World f0 [])) in
  (exists e, temporary_directory env = inl e /\ r = Raise e) \/
  (exists name,
     temporary_directory env = inr name /\
     let f1 := update name (Some (Dir [])) f0 in
     ((exists e,
         run_nuget env (config_path script_path) name f1 = inl e /\
         r = Raise e) \/
      (exists rc fr,
         run_nuget env (config_path script_path) name f1 = inr (rc, fr) /\
         (r = Ok tt \/
          r = Raise RESTORE_FAILED \/
          (resettable script_path fr = false /\
           r = Raise (reset_error script_path fr)) \/
          r = Raise DOWNLOAD_FAILED \/
          (exists q,
             In q (matched name (reset_fs script_path fr)) /\
             r = Raise (shutil_Error_exists (out ++ [basename q]))))))).
Proof.
  intros Houtside out r. subst r. rewrite main_in_answers.
  destruct (temporary_directory env) as [e|name] eqn:Ht.
  { left. exists e. auto. }
  right. exists name. split; [reflexivity|]. cbv zeta.
  destruct (run_nuget env (config_path script_path) name _) as [e|[rc fr]] eqn:Hrun.
  { left. exists e. auto. }
  right. exists rc, fr. split; [reflexivity|].
  exact (launched_run_ends_in_one_of_five_ways script_path name
           (fun _ _ _ => (rc, fr)) f0 (Houtside name eq_refl)).
Qed.

(** ** Two runs in a row *)

(** Two listings hold the same contents when every name resolves to the
    same node in both: the order of the entries does not count. *)
Definition same_listing (es1 es2 : entries) : Prop :=
  forall c, assoc c es1 = assoc c es2.

(** What is found at a path in two file systems is the same: nothing, the
    same regular file, or directories with the same contents. *)
Definition same_contents (a b : option node) : Prop :=
  match a, b with
  | Some (Dir es1), Some (Dir es2) => same_listing es1 es2
  | _, _ => a = b
  end.

Lemma same_contents_refl a : same_contents a a.
Proof. destruct a as [[d|es]|]; cbn; try reflexivity. intros c. reflexivity. Qed.

Lemma same_listing_permutation xs ys :
  Permutation xs ys -> NoDup (names xs) -> same_listing xs ys.
Proof.
  intros Hp Hnd c.
  assert (Hnd' : NoDup (names ys)).
  { unfold names. eapply Permutation_NoDup; [|exact Hnd].
    now apply Permutation_map. }
  destruct (assoc c xs) as [n|] eqn:E.
  - symmetry. apply assoc_nodup; [exact Hnd'|].
    eapply Permutation_in; [exact Hp|]. now apply assoc_In.
  - symmetry. apply assoc_None_not_In. apply assoc_None_not_In in E.
    intros Hin. apply E. unfold names in *.
    eapply Permutation_in; [|exact Hin].
    apply Permutation_map. now apply Permutation_sym.
Qed.

(** C9 (as amended).  Two runs in a row, the second starting in the file
    system the first process left, with both restore commands returning
    the same code.

    When both temporary directories lie outside the output directory:
    provided that both restore commands produce the same set of matched
    files (base names and contents, in any order of enumeration), that,
    if the first run gets as far as the loop, no two of them share a base
    name or they are enumerated in the same order, and that the second
    restore command leaves the output path and the script directory as
    the first run left them, the output path holds the same contents
    after the second run as after the first: the same entries, up to the
    order in which the directory lists them, and in the same order when
    the matches are enumerated in the same order.

    When both temporary directories lie inside the output directory:
    provided that the name of the second one is new and that the second
    restore command changes nothing but the contents of its packages
    directory, the output path holds the same after the second run as
    after the first. *)
Theorem second_run_reproduces_output
    (script_path t1 t2 : path) (nuget1 nuget2 : path -> path -> node -> Z * node)
    (f0 : node) :
  let out := plugins_output_path script_path in
  let fA := fs (exited script_path t1 nuget1 f0) in
  let fB := fs (exited script_path t2 nuget2 fA) in
  let left1 := restored script_path t1 nuget1 f0 in
  let left2 := restored script_path t2 nuget2 fA in
  ~ prefix t1 out ->
  ~ prefix t2 out ->
  returncode script_path t2 nuget2 fA = returncode script_path t1 nuget1 f0 ->
  (~ prefix out t1 -> ~ prefix out t2 ->
   Permutation (produced t2 left2) (produced t1 left1) ->
   (reaches_loop script_path t1 nuget1 f0 ->
    NoDup (names (produced t1 left1)) \/ produced t2 left2 = produced t1 left1) ->
   lookup out left2 = lookup out fA ->
   isdir_at script_path left2 = isdir_at script_path fA ->
   same_contents (lookup out fB) (lookup out fA) /\
   (produced t2 left2 = produced t1 left1 -> lookup out fB = lookup out fA)) /\
  (prefix out t1 -> prefix out t2 ->
   lookup t2 fA = None ->
   (exists packages,
      left2 = update t2 (Some (Dir packages)) (update t2 (Some (Dir [])) fA)) ->
   lookup out fB = lookup out fA).
Proof.
  intros out fA fB left1 left2 Hne1 Hne2 Hrc. split.
  - intros Ho1 Ho2 Hperm Hord Hout Hsp.
    assert (Hu1 : unrelated t1 out) by (split; assumption).
    assert (Hu2 : unrelated t2 out) by (split; assumption).
    pose proof (exited_outside script_path t1 nuget1 f0 Hu1) as HA.
    pose proof (exited_outside script_path t2 nuget2 fA Hu2) as HB.
    fold out fA left1 in HA. fold out fB left2 in HB.
    rewrite Hrc, Hout in HB. unfold output_after in HA, HB.
    destruct (returncode script_path t1 nuget1 f0 >? 0)%Z eqn:Hgt.
    { rewrite HB. split; [apply same_contents_refl | reflexivity]. }
    apply gtb_false_le in Hgt.
    destruct (resettable script_path left1) eqn:HrA; cbn [negb] in HA.
    + assert (HrB : resettable script_path left2 = true).
      { destruct (List.length _ <? EXPECTED_PLUGIN_COUNT)%nat in HA;
          eapply directory_is_resettable; unfold out in Hout; rewrite Hout; exact HA. }
      rewrite HrB in HB. cbn [negb] in HB.
      rewrite (Permutation_length Hperm) in HB.
      destruct (List.length (produced t1 left1) <? EXPECTED_PLUGIN_COUNT)%nat eqn:Hlen.
      * rewrite HA, HB. split; [apply same_contents_refl | reflexivity].
      * rewrite HA, HB. split; [|intros Heq; now rewrite Heq].
        cbn [same_contents].
        destruct Hord as [Hnd|Heq].
        -- repeat split; auto.
           rewrite <- (produced_after_reset script_path t1 _ Hu1) in Hlen.
           unfold produced in Hlen. rewrite length_map in Hlen.
           now apply Nat.ltb_ge in Hlen.
        -- assert (Hnd' : NoDup (names (produced t2 left2))).
           { unfold names. eapply Permutation_NoDup; [|exact Hnd].
             apply Permutation_map. now apply Permutation_sym. }
           rewrite !staged_fresh by assumption. cbn [snd app].
           now apply same_listing_permutation.
        -- rewrite Heq. intros c. reflexivity.
    + assert (HrB : resettable script_path left2 = false).
      { unfold resettable, isfile_at in *. fold out. rewrite Hsp, Hout, HA.
        unfold fA. rewrite (exited_script_directory _ _ _ _ Hne1).
        now rewrite (final_fs_without_reset _ _ _ _ Hgt HrA). }
      rewrite HrB in HB. cbn [negb] in HB. rewrite HB.
      split; [apply same_contents_refl | reflexivity].
  - intros Hi1 Hi2 Hnew [packages Hleft].
    pose proof (exited_inside script_path t1 nuget1 f0 Hi1 Hne1) as HA.
    pose proof (exited_inside script_path t2 nuget2 fA Hi2 Hne2) as HB.
    fold out fA left1 in HA. fold out fB left2 in HB. rewrite Hrc in HB.
    assert (Hrel : released t2 left2 = fA).
    { rewrite Hleft. now apply fill_then_release. }
    assert (HrB : resettable script_path left2 = resettable script_path fA).
    { rewrite Hleft. now rewrite !resettable_update_outside. }
    rewrite Hrel, HrB in HB.
    destruct (returncode script_path t1 nuget1 f0 >? 0)%Z eqn:Hgt; cbn [orb] in *.
    { exact HB. }
    apply gtb_false_le in Hgt.
    destruct (resettable script_path left1) eqn:HrA; cbn [negb] in *.
    + rewrite (directory_is_resettable _ _ _ HA) in HB. cbn [negb] in HB.
      now rewrite HA, HB.
    + assert (HrA' : resettable script_path fA = false).
      { unfold fA. rewrite (exited_reset_refused _ _ _ _ Hgt HrA).
        now rewrite resettable_released. }
      rewrite HrA' in HB. exact HB.
Qed.

(** ** Concrete runs *)

(** A host with the repository checked out under [/repo] and the system
    temporary directory at [/tmp]; [plugins] is what sits next to the
    script under the name of the output directory, if anything. *)
Definition dll (name : string) : string * node :=
  (name, File ("bytes of " ++ name)%string).

Definition package (name : string) (dlls : entries) : string * node :=
  (name, Dir [("lib", Dir [("netstandard2.0", Dir dlls);
                           ("net45", Dir [dll "legacy.dll"])])]).

Definition SCRIPTS : path := ["repo"; "Scripts"].
Definition TEMP : path := ["tmp"; "tmpk3v9x2aa"].
Definition TEMP2 : path := ["tmp"; "tmpq81mzt0c"].
Definition PLUGINS : path := plugins_output_path SCRIPTS.

Definition host (plugins : entries) : node :=
  Dir [("repo",
        Dir [("Scripts",
              Dir ([("getPackages.py", File "import os");
                    ("packages.config", File "<packages/>")] ++ plugins))]);
       ("tmp", Dir [])].

Definition stale_host : node := host [("Plugins", Dir [dll "stale.dll"])].
Definition fresh_host : node := host [].
Definition blocked_host : node := host [("Plugins", File "not a directory")].

Definition eight_dlls : entries :=
  [ package "A" [dll "a1.dll"; dll "a2.dll"; dll "a3.dll"; dll "readme.txt"];
    package "B" [dll "b1.dll"; dll "b2.dll"; dll "b3.dll"];
    package "C" [dll "c1.dll"; dll "c2.dll"] ].

Definition three_dlls : entries :=
  [ package "A" [dll "a1.dll"; dll "a2.dll"; dll "a3.dll"] ].

(** Nine matches; the third shares its base name with the first. *)
Definition clashing_dlls : entries :=
  [ package "A" [dll "a1.dll"; dll "a2.dll"];
    package "B" [dll "a1.dll"; dll "b2.dll"; dll "b3.dll"];
    package "C" [dll "c1.dll"; dll "c2.dll"; dll "c3.dll"; dll "c4.dll"] ].

(** The packages of [eight_dlls], with the first two libraries of
    package A enumerated the other way round. *)
Definition eight_dlls_reordered : entries :=
  [ package "A" [dll "a2.dll"; dll "a1.dll"; dll "a3.dll"; dll "readme.txt"];
    package "B" [dll "b1.dll"; dll "b2.dll"; dll "b3.dll"];
    package "C" [dll "c1.dll"; dll "c2.dll"] ].

(** The packages of [clashing_dlls], enumerated from package B on. *)
Definition clashing_dlls_rotated : entries :=
  [ package "B" [dll "a1.dll"; dll "b2.dll"; dll "b3.dll"];
    package "C" [dll "c1.dll"; dll "c2.dll"; dll "c3.dll"; dll "c4.dll"];
    package "A" [dll "a1.dll"; dll "a2.dll"] ].

(** A host on which the repository is not checked out: a regular file
    sits where the directory [/repo] should be. *)
Definition file_host : node :=
  Dir [("repo", File "not a directory"); ("tmp", Dir [])].

(** Temporary directories inside the output directory of the script. *)
Definition TEMP_INSIDE : path := PLUGINS ++ ["tmp7f3k0q2d"].
Definition TEMP_INSIDE2 : path := PLUGINS ++ ["tmpw5c1r8ye"].

(** A restore command that fills the packages directory and returns
    [rc]. *)
Definition nuget (rc : Z) (packages : entries) : path -> path -> node -> Z * node :=
  fun _ dir f => (rc, update dir (Some (Dir packages)) f).

(** A host on which [nuget] is not installed. *)
Definition no_nuget : environment :=
  Environment (inr TEMP) (fun _ _ _ => inl (FileNotFoundError ["nuget"])).

Lemma unrelated_decide p q :
  prefixb p q = false -> prefixb q p = false -> unrelated p q.
Proof.
  intros H1 H2. split; intros H; apply prefixb_spec in H; congruence.
Qed.

Lemma nodup_check (l : list string) : nodup string_dec l = l -> NoDup l.
Proof. intros <-. apply NoDup_nodup. Qed.

Lemma TEMP_apart : unrelated TEMP PLUGINS.
Proof. apply unrelated_decide; reflexivity. Qed.

Lemma TEMP2_apart : unrelated TEMP2 PLUGINS.
Proof. apply unrelated_decide; reflexivity. Qed.

(** *** Runs on which the amended claims apply *)

Lemma output_holds_exactly_the_matches_witness :
  ~ prefix TEMP PLUGINS /\
  result SCRIPTS TEMP (nuget 0 eight_dlls) stale_host = Ok tt /\
  exists es,
    lookup PLUGINS (fs (final SCRIPTS TEMP (nuget 0 eight_dlls) stale_host)) = Some (Dir es) /\
    names es = ["a1.dll"; "a2.dll"; "a3.dll"; "b1.dll"; "b2.dll"; "b3.dll"; "c1.dll"; "c2.dll"] /\
    Forall (fun e => is_file_node (snd e) = true) es.
Proof.
  destruct (output_holds_exactly_the_matches
              SCRIPTS TEMP (nuget 0 eight_dlls) stale_host (proj1 TEMP_apart))
    as ([_ Hcompletes] & Hholds).
  assert (Hres : result SCRIPTS TEMP (nuget 0 eight_dlls) stale_host = Ok tt).
  { apply Hcompletes. split; [vm_compute; discriminate|].
    split; [vm_compute; reflexivity|].
    split; [vm_compute; repeat constructor|].
    apply nodup_check. vm_compute. reflexivity. }
  destruct (Hholds Hres) as (es & Hout & Hnames & _ & Hfiles).
  split; [exact (proj1 TEMP_apart)|]. split; [exact Hres|].
  exists es. split; [exact Hout|]. split.
  - rewrite Hnames. vm_compute. reflexivity.
  - apply Hfiles. vm_compute. repeat constructor.
Defined.

Lemma restore_error_iff_positive_returncode_witness :
  result SCRIPTS TEMP (nuget 1 eight_dlls) stale_host = Raise RESTORE_FAILED /\
  result SCRIPTS TEMP (nuget 0 eight_dlls) stale_host <> Raise RESTORE_FAILED.
Proof.
  destruct (restore_error_iff_positive_returncode
              SCRIPTS TEMP (nuget 1 eight_dlls) stale_host) as [[_ Hpos] _].
  destruct (restore_error_iff_positive_returncode
              SCRIPTS TEMP (nuget 0 eight_dlls) stale_host) as [[Hzero _] _].
  split.
  - apply Hpos. vm_compute. reflexivity.
  - intros H. apply Hzero in H. vm_compute in H. discriminate.
Defined.

Lemma download_error_iff_fewer_than_expected_witness :
  result SCRIPTS TEMP (nuget 0 three_dlls) stale_host = Raise DOWNLOAD_FAILED /\
  In (move_called (TEMP ++ ["A"; "lib"; "netstandard2.0"; "a1.dll"]) PLUGINS)
     (log (final SCRIPTS TEMP (nuget 0 eight_dlls) stale_host)).
Proof.
  destruct (download_error_iff_fewer_than_expected
              SCRIPTS TEMP (nuget 0 three_dlls) stale_host)
    as (_ & [_ Hfew] & _);
    [vm_compute; discriminate | vm_compute; reflexivity |].
  destruct (download_error_iff_fewer_than_expected
              SCRIPTS TEMP (nuget 0 eight_dlls) stale_host)
    as (_ & _ & Hmany);
    [vm_compute; discriminate | vm_compute; reflexivity |].
  split.
  - apply Hfew. vm_compute. repeat constructor.
  - apply Hmany; [vm_compute; repeat constructor | vm_compute; reflexivity].
Defined.

Lemma positive_returncode_leaves_output_untouched_witness :
  (returncode SCRIPTS TEMP (nuget 1 eight_dlls) stale_host > 0)%Z /\
  result SCRIPTS TEMP (nuget 1 eight_dlls) stale_host = Raise RESTORE_FAILED /\
  lookup PLUGINS (fs (final SCRIPTS TEMP (nuget 1 eight_dlls) stale_host)) =
    Some (Dir [dll "stale.dll"]).
Proof.
  assert (Hrc : (returncode SCRIPTS TEMP (nuget 1 eight_dlls) stale_host > 0)%Z)
    by (vm_compute; reflexivity).
  destruct (positive_returncode_leaves_output_untouched
              SCRIPTS TEMP (nuget 1 eight_dlls) stale_host Hrc)
    as (Hres & _ & _ & _ & Hsame).
  split; [exact Hrc|]. split; [exact Hres|].
  unfold PLUGINS. rewrite (Hsame TEMP_apart); vm_compute; reflexivity.
Defined.

Lemma too_few_matches_leave_empty_output_witness :
  (returncode SCRIPTS TEMP (nuget 0 three_dlls) stale_host <= 0)%Z /\
  List.length (matched TEMP (globbed SCRIPTS TEMP (nuget 0 three_dlls) stale_host)) = 3 /\
  result SCRIPTS TEMP (nuget 0 three_dlls) stale_host = Raise DOWNLOAD_FAILED /\
  lookup PLUGINS (fs (final SCRIPTS TEMP (nuget 0 three_dlls) stale_host)) = Some (Dir []).
Proof.
  assert (Hrc : (returncode SCRIPTS TEMP (nuget 0 three_dlls) stale_host <= 0)%Z)
    by (vm_compute; discriminate).
  destruct (too_few_matches_leave_empty_output
              SCRIPTS TEMP (nuget 0 three_dlls) stale_host Hrc)
    as (Hres & _ & _ & _ & _ & Hout).
  - vm_compute. reflexivity.
  - vm_compute. repeat constructor.
  - refine (conj Hrc (conj _ (conj Hres Hout))). vm_compute. reflexivity.
Defined.

Lemma reset_of_absent_or_directory_witness :
  reset_output_directory SCRIPTS (World stale_host []) =
    (Ok tt, World (reset_fs SCRIPTS stale_host)
                  [rmtree_called PLUGINS; mkdir_called PLUGINS]) /\
  reset_output_directory SCRIPTS (World fresh_host []) =
    (Ok tt, World (reset_fs SCRIPTS fresh_host) [mkdir_called PLUGINS]) /\
  lookup PLUGINS (reset_fs SCRIPTS stale_host) = Some (Dir []) /\
  lookup PLUGINS (reset_fs SCRIPTS fresh_host) = Some (Dir []).
Proof.
  destruct (reset_of_absent_or_directory SCRIPTS stale_host [])
    as (Hrun & Hout & _); [vm_compute; reflexivity|].
  destruct (reset_of_absent_or_directory SCRIPTS fresh_host [])
    as (Hrun' & Hout' & _); [vm_compute; reflexivity|].
  exact (conj Hrun (conj Hrun' (conj Hout Hout'))).
Defined.

Lemma matches_are_moved_not_copied_witness :
  exists n,
    lookup (TEMP ++ ["B"; "lib"; "netstandard2.0"; "b2.dll"])
           (globbed SCRIPTS TEMP (nuget 0 eight_dlls) fresh_host) = Some n /\
    lookup (TEMP ++ ["B"; "lib"; "netstandard2.0"; "b2.dll"])
           (fs (snd (pipeline SCRIPTS TEMP (nuget 0 eight_dlls) (World fresh_host [])))) = None /\
    lookup (PLUGINS ++ ["b2.dll"])
           (fs (final SCRIPTS TEMP (nuget 0 eight_dlls) fresh_host)) = Some n.
Proof.
  destruct (matches_are_moved_not_copied SCRIPTS TEMP (nuget 0 eight_dlls) fresh_host
              (TEMP ++ ["B"; "lib"; "netstandard2.0"; "b2.dll"]))
    as (x & name & n & Hp & Hname & Hn & Hgone & _ & _ & Hthere).
  - exact (proj1 TEMP_apart).
  - vm_compute. reflexivity.
  - vm_compute. tauto.
  - exists n. rewrite <- Hname in Hthere.
    exact (conj Hn (conj Hgone Hthere)).
Defined.


Lemma repeated_base_name_aborts_witness :
  result SCRIPTS TEMP (nuget 0 clashing_dlls) stale_host =
    Raise (shutil_Error_exists (PLUGINS ++ ["a1.dll"])) /\
  lookup (PLUGINS ++ ["a1.dll"])
         (fs (final SCRIPTS TEMP (nuget 0 clashing_dlls) stale_host)) =
    Some (File "bytes of a1.dll") /\
  ~ In (cleanup_called TEMP) (log (final SCRIPTS TEMP (nuget 0 clashing_dlls) stale_host)).
Proof.
  destruct (repeated_base_name_aborts SCRIPTS TEMP (nuget 0 clashing_dlls) stale_host
              [TEMP ++ ["A"; "lib"; "netstandard2.0"; "a1.dll"];
               TEMP ++ ["A"; "lib"; "netstandard2.0"; "a2.dll"]]
              (TEMP ++ ["B"; "lib"; "netstandard2.0"; "a1.dll"])
              (map (fun n => TEMP ++ n)
                   [["B"; "lib"; "netstandard2.0"; "b2.dll"];
                    ["B"; "lib"; "netstandard2.0"; "b3.dll"];
                    ["C"; "lib"; "netstandard2.0"; "c1.dll"];
                    ["C"; "lib"; "netstandard2.0"; "c2.dll"];
                    ["C"; "lib"; "netstandard2.0"; "c3.dll"];
                    ["C"; "lib"; "netstandard2.0"; "c4.dll"]]))
    as (Hres & Hnoclean & Hout & _).
  - exact (proj1 TEMP_apart).
  - vm_compute. discriminate.
  - vm_compute. reflexivity.
  - vm_compute. repeat constructor.
  - vm_compute. reflexivity.
  - apply nodup_check. vm_compute. reflexivity.
  - vm_compute. tauto.
  - split; [exact Hres|]. split; [|exact Hnoclean].
    unfold PLUGINS. rewrite (lookup_child _ _ _ _ Hout). vm_compute. reflexivity.
Defined.

(** *** Runs on which the claims fail as they were stated *)

(** C1 as stated fails: the restore command returns 0 and nine paths
    match, but the third match shares its base name with the first; the
    run ends in [shutil.Error] and the output directory lacks most of the
    matches. *)
Lemma shared_base_name_counterexample :
  returncode SCRIPTS TEMP (nuget 0 clashing_dlls) stale_host = 0%Z /\
  8 <= List.length (matched TEMP (globbed SCRIPTS TEMP (nuget 0 clashing_dlls) stale_host)) /\
  result SCRIPTS TEMP (nuget 0 clashing_dlls) stale_host <> Ok tt /\
  ~ (exists es,
       lookup PLUGINS (fs (final SCRIPTS TEMP (nuget 0 clashing_dlls) stale_host)) =
         Some (Dir es) /\
       forall p,
         In p (matched TEMP (globbed SCRIPTS TEMP (nuget 0 clashing_dlls) stale_host)) ->
         In (basename p) (names es)).
Proof.
  split; [vm_compute; reflexivity|].
  split; [vm_compute; repeat constructor|].
  split; [vm_compute; discriminate|].
  intros (es & Hes & Hall).
  specialize (Hall (TEMP ++ ["C"; "lib"; "netstandard2.0"; "c4.dll"])).
  vm_compute in Hes. injection Hes as <-.
  vm_compute in Hall. intuition discriminate.
Qed.

(** C2 as stated fails: the restore command is killed by signal 9, its
    return code [-9] is not zero, and the restore-failure error is not
    raised. *)
Lemma negative_returncode_counterexample :
  returncode SCRIPTS TEMP (nuget (-9) three_dlls) stale_host <> 0%Z /\
  result SCRIPTS TEMP (nuget (-9) three_dlls) stale_host <> Raise RESTORE_FAILED.
Proof. split; vm_compute; discriminate. Qed.

(** C3 as stated fails: the restore command returns 0 and three paths
    match, but a regular file occupies the output path; the run ends in
    [FileExistsError], not in the download error. *)
Lemma blocked_output_counterexample :
  returncode SCRIPTS TEMP (nuget 0 three_dlls) blocked_host = 0%Z /\
  List.length (matched TEMP (fs (final SCRIPTS TEMP (nuget 0 three_dlls) blocked_host))) < 8 /\
  result SCRIPTS TEMP (nuget 0 three_dlls) blocked_host <> Raise DOWNLOAD_FAILED.
Proof.
  split; [vm_compute; reflexivity|].
  split; [vm_compute; repeat constructor | vm_compute; discriminate].
Qed.

(** C4 as stated fails: with return code [-9], which is not zero, the
    output directory is reset and its former contents are lost. *)
Lemma negative_returncode_resets_counterexample :
  returncode SCRIPTS TEMP (nuget (-9) three_dlls) stale_host <> 0%Z /\
  In (rmtree_called PLUGINS) (log (final SCRIPTS TEMP (nuget (-9) three_dlls) stale_host)) /\
  lookup PLUGINS (fs (final SCRIPTS TEMP (nuget (-9) three_dlls) stale_host)) <>
    lookup PLUGINS stale_host.
Proof.
  split; [vm_compute; discriminate|].
  split; [vm_compute; tauto | vm_compute; discriminate].
Qed.

(** C5 as stated fails: the restore command returns 0 and three paths
    match, but a regular file occupies the output path; the run ends
    during the reset and the output path is not an empty directory. *)
Lemma blocked_output_not_emptied_counterexample :
  returncode SCRIPTS TEMP (nuget 0 three_dlls) blocked_host = 0%Z /\
  List.length (matched TEMP (fs (final SCRIPTS TEMP (nuget 0 three_dlls) blocked_host))) < 8 /\
  result SCRIPTS TEMP (nuget 0 three_dlls) blocked_host = Raise (FileExistsError PLUGINS) /\
  lookup PLUGINS (fs (final SCRIPTS TEMP (nuget 0 three_dlls) blocked_host)) <> Some (Dir []).
Proof.
  split; [vm_compute; reflexivity|].
  split; [vm_compute; repeat constructor|].
  split; [vm_compute; reflexivity | vm_compute; discriminate].
Qed.

(** C6 as stated fails: a regular file at the output path is not
    deleted, the reset raises, and the path is not a directory
    afterwards. *)
Lemma reset_of_regular_file_counterexample :
  exists_at PLUGINS blocked_host = true /\
  reset_output_directory SCRIPTS (World blocked_host []) =
    (Raise (FileExistsError PLUGINS), World blocked_host [mkdir_called PLUGINS]) /\
  isdir_at PLUGINS
    (fs (snd (reset_output_directory SCRIPTS (World blocked_host [])))) = false.
Proof. repeat split; vm_compute; reflexivity. Qed.


(** C9 as stated fails: both restore commands produce the same eight
    matches, but the first returns 1 and the second 0; the first run
    leaves the stale output directory, the second one replaces it. *)
Lemma differing_returncodes_counterexample :
  produced TEMP2
    (restored SCRIPTS TEMP2 (nuget 0 eight_dlls)
       (fs (exited SCRIPTS TEMP (nuget 1 eight_dlls) stale_host))) =
  produced TEMP (restored SCRIPTS TEMP (nuget 1 eight_dlls) stale_host) /\
  lookup PLUGINS (fs (exited SCRIPTS TEMP (nuget 1 eight_dlls) stale_host)) =
    Some (Dir [dll "stale.dll"]) /\
  lookup PLUGINS
    (fs (exited SCRIPTS TEMP2 (nuget 0 eight_dlls)
           (fs (exited SCRIPTS TEMP (nuget 1 eight_dlls) stale_host)))) <>
  lookup PLUGINS (fs (exited SCRIPTS TEMP (nuget 1 eight_dlls) stale_host)) /\
  ~ same_contents
      (lookup PLUGINS
         (fs (exited SCRIPTS TEMP2 (nuget 0 eight_dlls)
                (fs (exited SCRIPTS TEMP (nuget 1 eight_dlls) stale_host)))))
      (lookup PLUGINS (fs (exited SCRIPTS TEMP (nuget 1 eight_dlls) stale_host))).
Proof.
  split; [vm_compute; reflexivity|]. split; [vm_compute; reflexivity|].
  split; [vm_compute; discriminate|].
  intros H. vm_compute in H. specialize (H "stale.dll"). vm_compute in H.
  discriminate.
Qed.

(** *** Runs on which the further properties apply *)



Lemma script_touches_only_output_and_temp_witness :
  lookup (config_path SCRIPTS)
    (fs (final SCRIPTS TEMP (nuget 0 eight_dlls) stale_host)) =
    Some (File "<packages/>") /\
  lookup (SCRIPTS ++ ["getPackages.py"])
    (fs (final SCRIPTS TEMP (nuget 0 clashing_dlls) stale_host)) =
    Some (File "import os").
Proof.
  destruct (script_touches_only_output_and_temp
              SCRIPTS TEMP (nuget 0 eight_dlls) stale_host) as [_ Hconfig].
  destruct (script_touches_only_output_and_temp
              SCRIPTS TEMP (nuget 0 clashing_dlls) stale_host) as [Hframe _].
  split.
  - rewrite Hconfig; [vm_compute; reflexivity | apply unrelated_decide; reflexivity].
  - rewrite Hframe;
      [vm_compute; reflexivity | apply unrelated_decide; reflexivity
       | apply unrelated_decide; reflexivity].
Defined.

Lemma calls_follow_the_pipeline_witness :
  log (final SCRIPTS TEMP (nuget 0 eight_dlls) stale_host) =
    restore_log SCRIPTS TEMP (nuget 0 eight_dlls) stale_host ++
    remaining_calls SCRIPTS TEMP (nuget 0 eight_dlls) stale_host /\
  List.length (remaining_calls SCRIPTS TEMP (nuget 0 eight_dlls) stale_host) = 11.
Proof.
  destruct (calls_follow_the_pipeline SCRIPTS TEMP (nuget 0 eight_dlls) stale_host)
    as [_ Hall].
  split; [apply Hall; vm_compute; reflexivity | vm_compute; reflexivity].
Defined.

Lemma refused_reset_changes_nothing_witness :
  (returncode SCRIPTS TEMP (nuget 0 eight_dlls) blocked_host <= 0)%Z /\
  resettable SCRIPTS (restored SCRIPTS TEMP (nuget 0 eight_dlls) blocked_host) = false /\
  result SCRIPTS TEMP (nuget 0 eight_dlls) blocked_host =
    Raise (FileExistsError PLUGINS) /\
  fs (final SCRIPTS TEMP (nuget 0 eight_dlls) blocked_host) =
    restored SCRIPTS TEMP (nuget 0 eight_dlls) blocked_host /\
  fs (exited SCRIPTS TEMP (nuget 0 eight_dlls) blocked_host) = blocked_host /\
  result SCRIPTS TEMP (nuget 0 eight_dlls) file_host =
    Raise (NotADirectoryError PLUGINS).
Proof.
  assert (Hrc : (returncode SCRIPTS TEMP (nuget 0 eight_dlls) blocked_host <= 0)%Z)
    by (vm_compute; discriminate).
  assert (Hr : resettable SCRIPTS
                 (restored SCRIPTS TEMP (nuget 0 eight_dlls) blocked_host) = false)
    by (vm_compute; reflexivity).
  destruct (refused_reset_changes_nothing
              SCRIPTS TEMP (nuget 0 eight_dlls) blocked_host Hrc Hr)
    as (Hfs & _ & Hexit & Hfile & _).
  assert (Hrc' : (returncode SCRIPTS TEMP (nuget 0 eight_dlls) file_host <= 0)%Z)
    by (vm_compute; discriminate).
  assert (Hr' : resettable SCRIPTS
                  (restored SCRIPTS TEMP (nuget 0 eight_dlls) file_host) = false)
    by (vm_compute; reflexivity).
  destruct (refused_reset_changes_nothing
              SCRIPTS TEMP (nuget 0 eight_dlls) file_host Hrc' Hr')
    as (_ & _ & _ & _ & Hnotdir & _).
  refine (conj Hrc (conj Hr (conj _ (conj Hfs (conj _ _))))).
  - apply Hfile. vm_compute. reflexivity.
  - rewrite Hexit. vm_compute. reflexivity.
  - apply Hnotdir. right. vm_compute. reflexivity.
Defined.

Lemma run_ends_in_one_of_seven_ways_witness :
  fst (main_in SCRIPTS no_nuget (World stale_host [])) =
    Raise (FileNotFoundError ["nuget"]).
Proof.
  destruct (run_ends_in_one_of_seven_ways SCRIPTS no_nuget stale_host)
    as [(e & Ht & _)|(name & Ht & [(e & Hrun & Hres)|(rc & fr & Hrun & _)])].
  - intros name [= <-]. exact (proj1 TEMP_apart).
  - discriminate Ht.
  - injection Hrun as <-. exact Hres.
  - discriminate Hrun.
Defined.

Lemma shutil_error_iff_shared_base_name_witness :
  ~ prefix TEMP PLUGINS /\
  (exists d, result SCRIPTS TEMP (nuget 0 clashing_dlls) stale_host =
               Raise (shutil_Error_exists d)) /\
  ~ (exists d, result SCRIPTS TEMP (nuget 0 eight_dlls) stale_host =
                 Raise (shutil_Error_exists d)).
Proof.
  destruct (shutil_error_iff_shared_base_name
              SCRIPTS TEMP (nuget 0 clashing_dlls) stale_host (proj1 TEMP_apart))
    as [_ Hclash].
  destruct (shutil_error_iff_shared_base_name
              SCRIPTS TEMP (nuget 0 eight_dlls) stale_host (proj1 TEMP_apart))
    as [Hclean _].
  split; [exact (proj1 TEMP_apart)|]. split.
  - apply Hclash. split; [vm_compute; discriminate|].
    split; [vm_compute; reflexivity|].
    split; [vm_compute; repeat constructor|].
    intros Hnd. vm_compute in Hnd.
    inversion Hnd as [|? ? Hnot _]. apply Hnot. vm_compute. tauto.
  - intros H. apply Hclean in H. destruct H as (_ & _ & _ & Hdup).
    apply Hdup. apply nodup_check. vm_compute. reflexivity.
Defined.

Lemma output_holds_only_this_download_witness :
  lookup (PLUGINS ++ ["stale.dll"])
    (fs (final SCRIPTS TEMP (nuget 0 eight_dlls) stale_host)) = None /\
  (exists p,
     In p (matched TEMP (globbed SCRIPTS TEMP (nuget 0 eight_dlls) stale_host)) /\
     basename p = "b1.dll" /\
     lookup p (globbed SCRIPTS TEMP (nuget 0 eight_dlls) stale_host) =
       Some (File "bytes of b1.dll")).
Proof.
  split; [vm_compute; reflexivity|].
  apply (output_holds_only_this_download
           SCRIPTS TEMP (nuget 0 eight_dlls) stale_host "b1.dll" (File "bytes of b1.dll")).
  - exact (proj1 TEMP_apart).
  - vm_compute. discriminate.
  - vm_compute. reflexivity.
  - vm_compute. reflexivity.
Defined.

Lemma completed_run_removes_temporary_directory_witness :
  lookup TEMP (restored SCRIPTS TEMP (nuget 0 eight_dlls) stale_host) <> None /\
  lookup TEMP (fs (final SCRIPTS TEMP (nuget 0 eight_dlls) stale_host)) = None /\
  lookup (TEMP ++ ["A"; "lib"; "net45"; "legacy.dll"])
    (fs (final SCRIPTS TEMP (nuget 0 eight_dlls) stale_host)) = None.
Proof.
  assert (Hres : result SCRIPTS TEMP (nuget 0 eight_dlls) stale_host = Ok tt)
    by (vm_compute; reflexivity).
  split; [vm_compute; discriminate|]. split.
  - rewrite <- (app_nil_r TEMP) at 1.
    exact (completed_run_removes_temporary_directory
             SCRIPTS TEMP (nuget 0 eight_dlls) stale_host [] (proj1 TEMP_apart) Hres).
  - exact (completed_run_removes_temporary_directory
             SCRIPTS TEMP (nuget 0 eight_dlls) stale_host
             ["A"; "lib"; "net45"; "legacy.dll"] (proj1 TEMP_apart) Hres).
Defined.

Lemma temporary_directory_inside_output_is_wiped_witness :
  prefix PLUGINS TEMP_INSIDE /\
  List.length
    (matched TEMP_INSIDE
       (restored SCRIPTS TEMP_INSIDE (nuget 0 eight_dlls) stale_host)) = 8 /\
  result SCRIPTS TEMP_INSIDE (nuget 0 eight_dlls) stale_host = Raise DOWNLOAD_FAILED /\
  lookup PLUGINS (fs (final SCRIPTS TEMP_INSIDE (nuget 0 eight_dlls) stale_host)) =
    Some (Dir []).
Proof.
  assert (Hin : prefix PLUGINS TEMP_INSIDE) by (apply prefix_app).
  destruct (temporary_directory_inside_output_is_wiped
              SCRIPTS TEMP_INSIDE (nuget 0 eight_dlls) stale_host Hin)
    as (_ & Hres & Hout).
  - vm_compute. discriminate.
  - vm_compute. reflexivity.
  - refine (conj Hin (conj _ (conj Hres Hout))). vm_compute. reflexivity.
Defined.

Lemma cleanup_called_iff_run_completes_witness :
  ~ prefix TEMP PLUGINS /\
  In (cleanup_called TEMP) (log (final SCRIPTS TEMP (nuget 0 eight_dlls) fresh_host)) /\
  ~ In (cleanup_called TEMP) (log (final SCRIPTS TEMP (nuget 0 clashing_dlls) fresh_host)).
Proof.
  destruct (cleanup_called_iff_run_completes
              SCRIPTS TEMP (nuget 0 eight_dlls) fresh_host (proj1 TEMP_apart))
    as [_ Hdone].
  destruct (cleanup_called_iff_run_completes
              SCRIPTS TEMP (nuget 0 clashing_dlls) fresh_host (proj1 TEMP_apart))
    as [Hnot _].
  split; [exact (proj1 TEMP_apart)|]. split.
  - apply Hdone. vm_compute. reflexivity.
  - intros H. apply Hnot in H. vm_compute in H. discriminate.
Defined.

(** *** Two runs in a row *)

(** The second restore command enumerates two libraries the other way
    round, with both temporary directories outside the output directory;
    and both temporary directories lie inside the output directory. *)
Lemma second_run_reproduces_output_witness :
  same_contents
    (lookup PLUGINS
       (fs (exited SCRIPTS TEMP2 (nuget 0 eight_dlls_reordered)
              (fs (exited SCRIPTS TEMP (nuget 0 eight_dlls) stale_host)))))
    (lookup PLUGINS (fs (exited SCRIPTS TEMP (nuget 0 eight_dlls) stale_host))) /\
  lookup PLUGINS
    (fs (exited SCRIPTS TEMP_INSIDE2 (nuget 0 eight_dlls)
           (fs (exited SCRIPTS TEMP_INSIDE (nuget 0 eight_dlls) stale_host)))) =
  lookup PLUGINS (fs (exited SCRIPTS TEMP_INSIDE (nuget 0 eight_dlls) stale_host)).
Proof.
  destruct (second_run_reproduces_output SCRIPTS TEMP TEMP2
              (nuget 0 eight_dlls) (nuget 0 eight_dlls_reordered) stale_host)
    as [Houtside _].
  { exact (proj1 TEMP_apart). }
  { exact (proj1 TEMP2_apart). }
  { vm_compute. reflexivity. }
  destruct (second_run_reproduces_output SCRIPTS TEMP_INSIDE TEMP_INSIDE2
              (nuget 0 eight_dlls) (nuget 0 eight_dlls) stale_host)
    as [_ Hinside].
  { intros H. apply prefixb_spec in H. vm_compute in H. discriminate. }
  { intros H. apply prefixb_spec in H. vm_compute in H. discriminate. }
  { vm_compute. reflexivity. }
  split.
  - apply Houtside.
    + exact (proj2 TEMP_apart).
    + exact (proj2 TEMP2_apart).
    + vm_compute. apply perm_swap.
    + intros _. left. apply nodup_check. vm_compute. reflexivity.
    + vm_compute. reflexivity.
    + vm_compute. reflexivity.
  - apply Hinside.
    + apply prefix_app.
    + apply prefix_app.
    + vm_compute. reflexivity.
    + exists eight_dlls. vm_compute. reflexivity.
Defined.

(** The conditions on the matches and on the temporary directories are
    needed.  Nine matches, two of them named [a1.dll], enumerated from
    another package on: the same set of matched files and the same
    return code, but the loop stops at another entry. *)
Lemma reordered_clashing_matches_counterexample :
  Permutation
    (produced TEMP2
       (restored SCRIPTS TEMP2 (nuget 0 clashing_dlls_rotated)
          (fs (exited SCRIPTS TEMP (nuget 0 clashing_dlls) stale_host))))
    (produced TEMP (restored SCRIPTS TEMP (nuget 0 clashing_dlls) stale_host)) /\
  ~ same_contents
      (lookup PLUGINS
         (fs (exited SCRIPTS TEMP2 (nuget 0 clashing_dlls_rotated)
                (fs (exited SCRIPTS TEMP (nuget 0 clashing_dlls) stale_host)))))
      (lookup PLUGINS (fs (exited SCRIPTS TEMP (nuget 0 clashing_dlls) stale_host))).
Proof.
  split.
  - assert (E : produced TEMP2
                  (restored SCRIPTS TEMP2 (nuget 0 clashing_dlls_rotated)
                     (fs (exited SCRIPTS TEMP (nuget 0 clashing_dlls) stale_host))) =
                skipn 2 (produced TEMP
                           (restored SCRIPTS TEMP (nuget 0 clashing_dlls) stale_host))
                ++ firstn 2 (produced TEMP
                               (restored SCRIPTS TEMP (nuget 0 clashing_dlls) stale_host)))
      by (vm_compute; reflexivity).
    rewrite E.
    rewrite <- (firstn_skipn 2 (produced TEMP
                  (restored SCRIPTS TEMP (nuget 0 clashing_dlls) stale_host))) at 3.
    apply Permutation_app_comm.
  - intros H. vm_compute in H. specialize (H "a2.dll"). vm_compute in H.
    discriminate.
Qed.

(** The second restore command fails like the first and leaves a file
    of its own in the output directory: the same matched files and the
    same return code, but the output directory has an entry more. *)
Lemma restore_touching_output_counterexample :
  let littering : path -> path -> node -> Z * node :=
    fun config dir f =>
      (1%Z, update (PLUGINS ++ ["nuget.log"]) (Some (File "restore failed"))
              (update dir (Some (Dir eight_dlls)) f)) in
  returncode SCRIPTS TEMP2 littering
    (fs (exited SCRIPTS TEMP (nuget 1 eight_dlls) stale_host)) =
  returncode SCRIPTS TEMP (nuget 1 eight_dlls) stale_host /\
  produced TEMP2
    (restored SCRIPTS TEMP2 littering
       (fs (exited SCRIPTS TEMP (nuget 1 eight_dlls) stale_host))) =
  produced TEMP (restored SCRIPTS TEMP (nuget 1 eight_dlls) stale_host) /\
  ~ same_contents
      (lookup PLUGINS
         (fs (exited SCRIPTS TEMP2 littering
                (fs (exited SCRIPTS TEMP (nuget 1 eight_dlls) stale_host)))))
      (lookup PLUGINS (fs (exited SCRIPTS TEMP (nuget 1 eight_dlls) stale_host))).
Proof.
  cbv zeta. split; [vm_compute; reflexivity|]. split; [vm_compute; reflexivity|].
  intros H. vm_compute in H. specialize (H "nuget.log"). vm_compute in H.
  discriminate.
Qed.

(** The first temporary directory lies inside the output directory and
    the second outside: the same matched files and the same return code,
    but the first run deletes its download with the reset and the second
    stages it. *)
Lemma temporary_directory_moved_counterexample :
  produced TEMP2
    (restored SCRIPTS TEMP2 (nuget 0 eight_dlls)
       (fs (exited SCRIPTS TEMP_INSIDE (nuget 0 eight_dlls) stale_host))) =
  produced TEMP_INSIDE
    (restored SCRIPTS TEMP_INSIDE (nuget 0 eight_dlls) stale_host) /\
  lookup PLUGINS (fs (exited SCRIPTS TEMP_INSIDE (nuget 0 eight_dlls) stale_host)) =
    Some (Dir []) /\
  exists es,
    lookup PLUGINS
      (fs (exited SCRIPTS TEMP2 (nuget 0 eight_dlls)
             (fs (exited SCRIPTS TEMP_INSIDE (nuget 0 eight_dlls) stale_host)))) =
      Some (Dir es) /\
    List.length es = 8.
Proof.
  split; [vm_compute; reflexivity|]. split; [vm_compute; reflexivity|].
  eexists. split; vm_compute; reflexivity.
Qed.
